(** * A shallow embedding of the service container ([src/container.ts])

    The container is a JavaScript class holding a [Map] from service names to
    stored service options.  Its methods return promises and call back into
    user code (constructors, factories, hooks).  The embedding below passes the
    container and the surrounding world explicitly, models every promise by
    the way it settles, and records every call into user code in a trace.

    User code is described by how it completes: a function by its result on
    the arguments it is given, a hook by whether it returns, throws or
    rejects.  It does not call back into the container while it runs, and
    what it throws can be converted to a string (as an [Error] can). *)

From Stdlib Require Import String List ZArith Bool Lia Permutation Sorted.
Import ListNotations.
Open Scope string_scope.
Open Scope list_scope.

Set Implicit Arguments.
Set Warnings "-register-all".

(** ** JavaScript values *)

Definition addr := nat.
Definition fid := nat.

(** Objects ([VObj]) and functions ([VFun]) are references: two of them are
    identity-equal exactly when their addresses agree. *)
Inductive value : Type :=
| VUndefined
| VNull
| VBool (b : bool)
| VNum (n : Z)
| VStr (s : string)
| VObj (a : addr)
| VArr (xs : list value)
| VFun (f : fid)
| VSymbol (description : string).

Inductive jstype : Type :=
| TUndefined | TObject | TBoolean | TNumber | TString | TFunction | TSymbol.

(** The [typeof] operator. *)
Definition typeof (v : value) : jstype :=
  match v with
  | VUndefined => TUndefined
  | VNull => TObject
  | VBool _ => TBoolean
  | VNum _ => TNumber
  | VStr _ => TString
  | VObj _ => TObject
  | VArr _ => TObject
  | VFun _ => TFunction
  | VSymbol _ => TSymbol
  end.

(** Truthiness, as tested by [if (...)], [!] and [||]. *)
Definition truthy (v : value) : bool :=
  match v with
  | VUndefined | VNull => false
  | VBool b => b
  | VNum n => negb (n =? 0)%Z
  | VStr s => negb (s =? "")
  | VObj _ | VArr _ | VFun _ | VSymbol _ => true
  end.

Definition is_object (v : value) : bool :=
  match v with
  | VObj _ | VArr _ | VFun _ => true
  | _ => false
  end.

(** How a piece of user code completes. *)
Inductive completion : Type :=
| Return (v : value)
| Throw (e : value).

(** What a function value does when it runs.  A class constructor, like a
    plain function under [new], initialises the fresh object it is given and
    returns or throws; when it returns an object, that object is what [new]
    evaluates to. *)
Inductive callable : Type :=
| Class (ctor : list value -> completion)
| Function (body : list value -> completion)
| Arrow (body : list value -> completion).

(** A hook (disposer, initializer, logging callback) is user code the container
    calls with itself as argument.  It returns, throws, or returns a promise
    that rejects. *)
Inductive hook_result : Type :=
| Returns
| Throws (e : value)
| Rejects (e : value).

Record hook : Type := { hook_id : nat; hook_run : hook_result }.

(** ** Service options ([src/types/ServiceOptions.ts]) *)

Inductive logging_option : Type :=
| LoggingStandard
| LoggingNone
| LoggingFn (h : hook).

Record Options : Type := {
  inject : option (list value);
  disposer : option hook;
  initializer : option hook;
  logging : option logging_option;
  lazyLoad : bool;
  isFunction : bool;
  isInstance : bool;
  priority : option Z;
  upsert_option : bool
}.

(** [ServiceOptions]; the [name] is whatever value the caller supplied, the
    code checks its type at run time.  A stored entry ([NoNameServiceOptions])
    is an object of the same shape; a property it lacks reads [undefined]. *)
Record ServiceOptions : Type := {
  name : value;
  service : value;
  options : option Options
}.

Definition NoNameServiceOptions := ServiceOptions.

(** The object literal [{ service: v }]. *)
Definition realized (v : value) : NoNameServiceOptions :=
  {| name := VUndefined; service := v; options := None |}.

(** ** Errors *)

Inductive error : Type :=
| NameNotString (n : value)
    (* "Service names must be of type string. Service: ... is not a string." *)
| AlreadyRegistered (n : string)
    (* "Service ... is already registered." *)
| NotRegistered (n : value)
    (* "Service ... has not been registered." *)
| DoesNotExist (n : value)
    (* "Service ... does not exist." *)
| CreatingService (n : value) (cause : error)
    (* "Error creating service: ...: " + e *)
| InvalidModule (file : string)
    (* "... does not export a valid service module." *)
| AlreadyExists (n : value)
    (* "Service already exists with name: .... Did you mean to enable the upsert option?" *)
| ReferenceError (identifier : string)
| TypeError (what : string)
| Thrown (e : value).

(** ** The world around a container *)

Inductive event : Type :=
| EvNew (f : fid) (args : list value) (a : addr)
| EvCall (f : fid) (args : list value)
| EvConsoleLog (n : string)
| EvLogging (h : nat) (container : nat) (s : ServiceOptions)
| EvInitializer (h : nat) (container : nat)
| EvDisposer (h : nat) (container : nat) (entry : NoNameServiceOptions).

(** [unprintable] lists the objects that throw when they are converted to a
    string (one made by [Object.create(null)], one whose [toString] throws),
    each with what it throws. *)
Record world : Type := {
  next_addr : addr;
  globals : list (string * value);
  events : list event;
  unprintable : list (addr * error)
}.

Definition emit (e : event) (w : world) : world :=
  {| next_addr := next_addr w; globals := globals w; events := events w ++ [e];
     unprintable := unprintable w |}.

Definition alloc (w : world) : addr * world :=
  (next_addr w,
   {| next_addr := S (next_addr w); globals := globals w; events := events w;
      unprintable := unprintable w |}).

(** Converting a value to a string, as a template literal does with
    [${v}]: what the conversion throws, if it throws.  A symbol cannot be
    converted; an array converts its elements, except [undefined] and
    [null]; a function converts to its source text. *)
Fixpoint conversion_error (w : world) (v : value) : option error :=
  match v with
  | VSymbol _ => Some (TypeError "Cannot convert a Symbol value to a string")
  | VObj a =>
      (fix find (l : list (addr * error)) : option error :=
         match l with
         | [] => None
         | (a', e) :: l' => if Nat.eqb a' a then Some e else find l'
         end) (unprintable w)
  | VArr xs =>
      (fix first (l : list value) : option error :=
         match l with
         | [] => None
         | x :: l' =>
             match conversion_error w x with
             | Some e => Some e
             | None => first l'
             end
         end) xs
  | _ => None
  end.

(** An error whose message is built from [v]: building it is what fails
    when [v] cannot be converted. *)
Definition with_message_of (w : world) (v : value) (e : error) : error :=
  match conversion_error w v with
  | Some t => t
  | None => e
  end.

(** ** The [Map] of services

    A JavaScript [Map] keeps its keys in insertion order.  [register] only
    ever inserts keys that passed the [typeof ... === "string"] test, so the
    keys are strings; a lookup with any other value finds nothing. *)
Module JsMap.
Section Ops.
Variable V : Type.
Definition t := list (string * V).

Fixpoint get (k : string) (m : t) : option V :=
  match m with
  | [] => None
  | (k', v) :: m' => if k' =? k then Some v else get k m'
  end.

Definition has (k : string) (m : t) : bool :=
  match get k m with Some _ => true | None => false end.

Fixpoint set (k : string) (v : V) (m : t) : t :=
  match m with
  | [] => [(k, v)]
  | (k', v') :: m' => if k' =? k then (k', v) :: m' else (k', v') :: set k v m'
  end.

(** A [Map] holds one binding per key; [delete] leaves none for [k]. *)
Definition delete (k : string) (m : t) : t :=
  filter (fun kv => negb (fst kv =? k)) m.

Definition keys (m : t) : list string := List.map fst m.
End Ops.
End JsMap.

Record Container : Type := {
  self : nat;
  services : JsMap.t NoNameServiceOptions;
  props : list (string * value)
}.

(** [this.logger], one of the properties copied from the constructor options. *)
Definition logger (c : Container) : value :=
  match JsMap.get "logger" (props c) with
  | Some v => v
  | None => VUndefined
  end.

Definition with_services (m : JsMap.t NoNameServiceOptions) (c : Container) : Container :=
  {| self := self c; services := m; props := props c |}.

Definition services_get (k : value) (c : Container) : option NoNameServiceOptions :=
  match k with
  | VStr s => JsMap.get s (services c)
  | _ => None
  end.

Definition services_has (k : value) (c : Container) : bool :=
  match services_get k c with Some _ => true | None => false end.

Definition services_delete (k : value) (c : Container) : Container :=
  match k with
  | VStr s => with_services (JsMap.delete s (services c)) c
  | _ => c
  end.

(** ** Promises, by the way they settle

    [NeverSettles e]: the executor was an [async] function whose body threw
    [e]; the rejection stays inside the executor and the promise handed to
    the caller remains pending. *)
Inductive promise (A : Type) : Type :=
| Resolved (a : A)
| Rejected (e : error)
| NeverSettles (e : error).

Arguments Resolved {A} a.
Arguments Rejected {A} e.
Arguments NeverSettles {A} e.

(** Synchronous code that may throw, over the container and the world. *)
Definition M (A : Type) : Type :=
  Container -> world -> (error + A) * Container * world.

Definition ret {A} (a : A) : M A := fun c w => (inr a, c, w).
Definition throw {A} (e : error) : M A := fun c w => (inl e, c, w).
Definition bind {A B} (m : M A) (k : A -> M B) : M B :=
  fun c w =>
    match m c w with
    | (inl e, c', w') => (inl e, c', w')
    | (inr a, c', w') => k a c' w'
    end.
Definition try_catch {A} (m : M A) (handler : error -> M A) : M A :=
  fun c w =>
    match m c w with
    | (inl e, c', w') => handler e c' w'
    | r => r
    end.
Definition lift_world {A} (f : world -> A * world) : M A :=
  fun c w => let (a, w') := f w in (inr a, c, w').
Definition this : M Container := fun c w => (inr c, c, w).
Definition log_event (e : event) : M unit := fun c w => (inr tt, c, emit e w).

Declare Scope js_scope.
Delimit Scope js_scope with js.
Notation "x <- m ;; k" := (bind m (fun x => k))
  (at level 61, m at next level, right associativity) : js_scope.
Notation "m ;; k" := (bind m (fun _ => k))
  (at level 61, right associativity) : js_scope.
Open Scope js_scope.

Definition option_of {A} (f : Options -> option A) (s : ServiceOptions) : option A :=
  match options s with
  | Some o => f o
  | None => None
  end.

Definition flag_of (f : Options -> bool) (s : ServiceOptions) : bool :=
  match options s with
  | Some o => f o
  | None => false
  end.

Definition services_set (k : string) (entry : NoNameServiceOptions) : M unit :=
  fun c w => (inr tt, with_services (JsMap.set k entry (services c)) c, w).

(** Calling a hook: the call is recorded, a synchronous throw propagates. *)
Definition call_hook (ev : event) (h : hook) : M hook_result :=
  log_event ev ;;
  match hook_run h with
  | Throws e => throw (Thrown e)
  | r => ret r
  end.

(** [await] on what a hook returned. *)
Definition await_hook (r : hook_result) : M unit :=
  match r with
  | Rejects e => throw (Thrown e)
  | _ => ret tt
  end.

(** ** What the loader finds in a directory *)

(** The default export of a module: a service description, or any other
    value. *)
Inductive default_export : Type :=
| ExportService (s : ServiceOptions)
| ExportValue (v : value).

Inductive import_result : Type :=
| ImportFails (e : value)
| ImportDefault (d : default_export).

Record file : Type := { file_name : string; file_import : import_result }.

Inductive directory : Type :=
| Unreadable (e : value)
| Listing (entries : list file).

Definition startsWith (s p : string) : bool := prefix p s.

Definition endsWith (s suffix : string) : bool :=
  (String.length suffix <=? String.length s)%nat
  && (substring (String.length s - String.length suffix) (String.length suffix) s =? suffix).

(** [file.endsWith(".js") && !file.startsWith("!")] *)
Definition loadable (f : file) : bool :=
  endsWith (file_name f) ".js" && negb (startsWith (file_name f) "!").

(** [!module || typeof module !== "object"] rejects the export; an object
    that is no service description has none of its properties. *)
Definition as_module (d : default_export) : option ServiceOptions :=
  match d with
  | ExportService s => Some s
  | ExportValue v =>
      if negb (truthy v) then None
      else match typeof v with
           | TObject => Some {| name := VUndefined; service := VUndefined; options := None |}
           | _ => None
           end
  end.

(** What the loop of [autoLoad] takes a file for. *)
Definition module_of (f : file) : option ServiceOptions :=
  match file_import f with
  | ImportFails _ => None
  | ImportDefault d => as_module d
  end.

(** [await p;] as the last statement of an [async] function returning
    nothing: it settles the way [p] does. *)
Definition await_void {A} (r : promise A * Container * world)
  : promise unit * Container * world :=
  match r with
  | (Resolved _, c, w) => (Resolved tt, c, w)
  | (Rejected e, c, w) => (Rejected e, c, w)
  | (NeverSettles e, c, w) => (NeverSettles e, c, w)
  end.

(** [options?.priority || 0] *)
Definition priority_of (s : ServiceOptions) : Z :=
  match option_of priority s with
  | Some p => p
  | None => 0%Z
  end.

Definition compare_priority (a b : ServiceOptions) : Z :=
  (priority_of b - priority_of a)%Z.


(** The module [m] bears the name [k]. *)
Definition named (k : string) (m : ServiceOptions) : bool :=
  match name m with
  | VStr n => k =? n
  | _ => false
  end.



(** [Array.prototype.sort] with a comparator: a stable sort.  [x] goes in
    front of the first element it does not compare greater than. *)
Section ArraySort.
Variable A : Type.
Variable cmp : A -> A -> Z.

Fixpoint array_insert (x : A) (l : list A) : list A :=
  match l with
  | [] => [x]
  | y :: l' => if (cmp x y <=? 0)%Z then x :: y :: l' else y :: array_insert x l'
  end.

Definition array_sort (l : list A) : list A := fold_right array_insert [] l.
End ArraySort.

(** The single argument [resolve] hands to the constructor:
    [options?.inject ?? null]. *)
Definition resolve_argument (entry : NoNameServiceOptions) : value :=
  match option_of inject entry with
  | Some l => VArr l
  | None => VNull
  end.

(** Code that leaves the container as it found it. *)
Definition keeps {A} (m : M A) : Prop :=
  forall c w, snd (fst (m c w)) = c.

(** ** The container's methods *)

Section WithFunctions.

(** The behaviour of every function value the program can reach. *)
Variable funs : fid -> callable.

(** [new f(...args)] *)
Definition construct (f : value) (args : list value) : M value :=
  match f with
  | VFun id =>
      match funs id with
      | Class ctor =>
          a <- lift_world alloc ;;
          log_event (EvNew id args a) ;;
          match ctor args with
          | Return v => ret (if is_object v then v else VObj a)
          | Throw e => throw (Thrown e)
          end
      | Function body =>
          a <- lift_world alloc ;;
          log_event (EvNew id args a) ;;
          match body args with
          | Return v => ret (if is_object v then v else VObj a)
          | Throw e => throw (Thrown e)
          end
      | Arrow _ => throw (TypeError "is not a constructor")
      end
  | _ => throw (TypeError "is not a constructor")
  end.

(** [f(...args)] *)
Definition call (f : value) (args : list value) : M value :=
  match f with
  | VFun id =>
      match funs id with
      | Class _ => throw (TypeError "Class constructor cannot be invoked without 'new'")
      | Function body | Arrow body =>
          log_event (EvCall id args) ;;
          match body args with
          | Return v => ret v
          | Throw e => throw (Thrown e)
          end
      end
  | _ => throw (TypeError "is not a function")
  end.

(** The [catch] appends what was thrown to the message; user code throws
    what can be converted to a string. *)
Definition createServiceInstance (s : ServiceOptions) : M value :=
  let injectArgs := match option_of inject s with Some l => l | None => [] end in
  try_catch
    (if flag_of isFunction s then call (service s) injectArgs
     else if flag_of isInstance s then ret (service s)
     else construct (service s) injectArgs)
    (fun e => throw (CreatingService (name s) e)).

(** The logging step of [register]'s loop. *)
Definition announce (n : string) (s : ServiceOptions) : M unit :=
  c <- this ;;
  if match option_of logging s with Some LoggingNone => false | _ => true end
     && negb (truthy (logger c))
  then match option_of logging s with
       | Some (LoggingFn h) =>
           call_hook (EvLogging (hook_id h) (self c) s) h ;; ret tt
       | _ => log_event (EvConsoleLog n)
       end
  else ret tt.

(** The initializer step: [await service.options.initializer(this)]. *)
Definition initialize (s : ServiceOptions) : M unit :=
  c <- this ;;
  match option_of initializer s with
  | Some h => r <- call_hook (EvInitializer (hook_id h) (self c)) h ;; await_hook r
  | None => ret tt
  end.

(** The body of [register]'s loop after the two guards, for a service whose
    name is the string [n]. *)
Definition register_one (n : string) (s : ServiceOptions) : M unit :=
  entry <- (if flag_of lazyLoad s then ret s
            else v <- createServiceInstance s ;; ret (realized v)) ;;
  services_set n entry ;;
  announce n s ;;
  initialize s.

(** What [register] does with a name that is no string: it builds the
    error message from the name and rejects with it; when the name cannot
    be converted, building the message throws inside the [async] executor. *)
Definition refuse_name (w : world) (n : value) : promise nat :=
  match conversion_error w n with
  | Some e => NeverSettles e
  | None => Rejected (NameNotString n)
  end.

(** [register(services)]: resolves with the container itself.  The match
    on the name is the test [typeof service.name !== "string"]. *)
Fixpoint register (l : list ServiceOptions) (c : Container) (w : world)
  : promise nat * Container * world :=
  match l with
  | [] => (Resolved (self c), c, w)
  | s :: rest =>
      match name s with
      | VStr n =>
          if JsMap.has n (services c)
          then (Rejected (AlreadyRegistered n), c, w)
          else match register_one n s c w with
               | (inl e, c', w') => (NeverSettles e, c', w')
               | (inr _, c', w') => register rest c' w'
               end
      | other => (refuse_name w other, c, w)
      end
  end.

(** [resolve(name)] *)
Definition resolve (k : value) (c : Container) (w : world)
  : promise value * Container * world :=
  match services_get k c with
  | None => (Rejected (with_message_of w k (NotRegistered k)), c, w)
  | Some serviceOptions =>
      match typeof (service serviceOptions) with
      | TFunction =>
          match construct (service serviceOptions)
                          [resolve_argument serviceOptions] c w with
          | (inl e, c', w') => (Rejected e, c', w')
          | (inr v, c', w') => (Resolved v, c', w')
          end
      | _ => (Resolved (service serviceOptions), c, w)
      end
  end.

(** [dispose(name)] *)
Definition dispose (k : value) (c : Container) (w : world)
  : promise unit * Container * world :=
  match services_get k c with
  | None => (Rejected (with_message_of w k (DoesNotExist k)), c, w)
  | Some entry =>
      match (match option_of disposer entry with
             | Some h => call_hook (EvDisposer (hook_id h) (self c) entry) h ;; ret tt
             | None => ret tt
             end ;;
             fun c0 w0 => (inr tt, services_delete k c0, w0)) c w with
      | (inl e, c', w') => (Rejected e, c', w')
      | (inr _, c', w') => (Resolved tt, c', w')
      end
  end.

(** [upsert(service)].  The identifier [key] is bound neither in the method
    nor in the module, so it is looked up on the global object. *)
Definition upsert (s : ServiceOptions) (c : Container) (w : world)
  : promise nat * Container * world :=
  if negb (services_has (name s) c) then register [s] c w
  else
    match JsMap.get "key" (globals w) with
    | None => (Rejected (ReferenceError "key"), c, w)
    | Some key =>
        match dispose key c w with
        | (Resolved _, c', w') => register [s] c' w'
        | (Rejected e, c', w') => (Rejected e, c', w')
        | (NeverSettles e, c', w') => (NeverSettles e, c', w')
        end
    end.

(** [disposeAll()]: every [dispose] promise is dropped. *)
Definition disposeAll (c : Container) (w : world)
  : promise unit * Container * world :=
  let '(c', w') :=
    fold_left (fun cw k => let '(_, c1, w1) := dispose (VStr k) (fst cw) (snd cw) in (c1, w1))
              (JsMap.keys (services c)) (c, w) in
  (Resolved tt, c', w').

(** *** Auto-loading *)

(** [modules.sort((a, b) => (b.options?.priority || 0) - (a.options?.priority || 0))] *)
Definition sort_modules (modules : list ServiceOptions) : list ServiceOptions :=
  array_sort compare_priority modules.

(** The loop over the files of the directory, as far as it gets; [modules]
    is the array filled so far.  It completes with the array, or ends where
    an [await] or a [throw] ends [autoLoad]. *)
Fixpoint scan (files : list file) (modules : list ServiceOptions)
         (c : Container) (w : world)
  : promise (list ServiceOptions) * Container * world :=
  match files with
  | [] => (Resolved modules, c, w)
  | f :: rest =>
      match file_import f with
      | ImportFails e => (Rejected (Thrown e), c, w)
      | ImportDefault d =>
          match as_module d with
          | None => (Rejected (InvalidModule (file_name f)), c, w)
          | Some module =>
              if services_has (name module) c then
                if flag_of upsert_option module then
                  match dispose (name module) c w with
                  | (Resolved _, c', w') => scan rest (modules ++ [module]) c' w'
                  | (Rejected e, c', w') => (Rejected e, c', w')
                  | (NeverSettles e, c', w') => (NeverSettles e, c', w')
                  end
                else (Rejected (AlreadyExists (name module)), c, w)
              else scan rest (modules ++ [module]) c w
          end
      end
  end.

(** [autoLoad(directoryUrl)], given what [readdirSync] finds there. *)
Definition autoLoad (dir : directory) (c : Container) (w : world)
  : promise unit * Container * world :=
  match dir with
  | Unreadable e => (Rejected (Thrown e), c, w)
  | Listing entries =>
      let files := filter loadable entries in
      match scan files [] c w with
      | (Resolved modules, c', w') =>
          await_void (register (sort_modules modules) c' w')
      | (Rejected e, c', w') => (Rejected e, c', w')
      | (NeverSettles e, c', w') => (NeverSettles e, c', w')
      end
  end.

End WithFunctions.

(** ** The class itself: construction and the static [instance] *)

(** The objects of class [Container] created so far, and the static field
    [Container.instance] ([None] while it is still [undefined]). *)
Record process : Type := {
  containers : list Container;
  instance : option nat
}.

(** Modelled from the spec: the type [ConstructorOptions], declared in
    [types/ConstructorOptions.ts], which is not among the sources.  The spec
    speaks of properties attached to the registry object, among them the
    registry-wide logger override; they are taken as a list of named values
    whose names are option names, none of them a member of the class. *)
Definition ConstructorOptions := list (string * value).

(** [new Container(options)]: the new container's reference and the process
    afterwards.  The keys of [options] are taken not to clash with the
    class's own members. *)
Definition new_Container (opts : option ConstructorOptions) (p : process)
  : nat * process :=
  let id := List.length (containers p) in
  let built :=
    {| self := id;
       services := [];
       props := fold_left (fun ps kv => JsMap.set (fst kv) (snd kv) ps)
                          (match opts with Some o => o | None => [] end) [] |} in
  (id, {| containers := containers p ++ [built]; instance := Some id |}).

(** [Container.getInstance()] *)
Definition getInstance (p : process) : option nat := instance p.

(** The process before any container exists, and after a series of
    constructions. *)
Definition boot : process := {| containers := []; instance := None |}.

Definition after_constructions (history : list (option ConstructorOptions)) : process :=
  fold_left (fun p o => snd (new_Container o p)) history boot.

(** ** Vocabulary for the trace and the hooks *)

(** The disposer of an entry throws when called. *)
Definition disposer_throws (entry : NoNameServiceOptions) : bool :=
  match option_of disposer entry with
  | Some h => match hook_run h with Throws _ => true | _ => false end
  | None => false
  end.

(** Calls that instantiate a service: [new f(...)] and [f(...)]. *)
Definition is_instantiation (e : event) : bool :=
  match e with
  | EvNew _ _ _ | EvCall _ _ => true
  | _ => false
  end.

(** What [register] logs: [console.log] and calls of a logging function. *)
Definition is_logging (e : event) : bool :=
  match e with
  | EvConsoleLog _ | EvLogging _ _ _ => true
  | _ => false
  end.

Definition is_initializer (e : event) : bool :=
  match e with
  | EvInitializer _ _ => true
  | _ => false
  end.

Definition is_disposer (e : event) : bool :=
  match e with
  | EvDisposer _ _ _ => true
  | _ => false
  end.

(** The initializer calls a batch asks for, in the order of the batch. *)
Definition initializer_events (container : nat) (l : list ServiceOptions) : list event :=
  flat_map (fun s => match option_of initializer s with
                     | Some h => [EvInitializer (hook_id h) container]
                     | None => []
                     end) l.

(** Run from [c] and [w], the code [m] only adds to the trace, and every
    event it adds satisfies [P]. *)
Definition emits_at {A} (P : event -> bool) (m : M A) (c : Container) (w : world) : Prop :=
  exists added,
    events (snd (m c w)) = events w ++ added /\ Forall (fun e => P e = true) added.

Definition emits {A} (P : event -> bool) (m : M A) : Prop :=
  forall c w, emits_at P m c w.

(** The same for a method, by the world it ends in. *)
Definition added_events (P : event -> bool) (w w' : world) : Prop :=
  exists added,
    events w' = events w ++ added /\ Forall (fun e => P e = true) added.

(** [options?.inject || []] *)
Definition inject_arguments (s : ServiceOptions) : list value :=
  match option_of inject s with
  | Some l => l
  | None => []
  end.

(** The disposer of the entry the map has for [k] throws. *)
Definition throws_at (k : string) (m : JsMap.t NoNameServiceOptions) : bool :=
  match JsMap.get k m with
  | Some entry => disposer_throws entry
  | None => false
  end.

(** What one [dispose] of the loop of [disposeAll] does to the map. *)
Definition dispose_step (m : JsMap.t NoNameServiceOptions) (k : string)
  : JsMap.t NoNameServiceOptions :=
  if throws_at k m then m else JsMap.delete k m.

(** ** A small program to run the container on *)

Module Sample.

(** [class Clock {}], [function answer() { return 42 }],
    [function makeClock() { return Clock }], [class Broken] whose
    constructor throws, [class Registry] whose constructor returns the one
    object at address 99, and arrow functions everywhere else. *)
Definition funs (f : fid) : callable :=
  match f with
  | 0 => Class (fun _ => Return VUndefined)
  | 1 => Function (fun _ => Return (VNum 42))
  | 2 => Function (fun _ => Return (VFun 0))
  | 3 => Class (fun _ => Throw (VStr "broken"))
  | 4 => Class (fun _ => Return (VObj 99))
  | _ => Arrow (fun _ => Return VUndefined)
  end.

Definition Clock : value := VFun 0.
Definition answer : value := VFun 1.
Definition makeClock : value := VFun 2.
Definition Broken : value := VFun 3.

Definition no_options : Options :=
  {| inject := None; disposer := None; initializer := None; logging := None;
     lazyLoad := false; isFunction := false; isInstance := false;
     priority := None; upsert_option := false |}.

Definition container0 : Container := {| self := 0; services := []; props := [] |}.
Definition world0 : world :=
  {| next_addr := 0; globals := []; events := []; unprintable := [] |}.

Definition quiet_hook (i : nat) : hook := {| hook_id := i; hook_run := Returns |}.
Definition throwing_hook (i : nat) : hook :=
  {| hook_id := i; hook_run := Throws (VStr "disposer failed") |}.

Definition with_lazy (o : Options) : Options :=
  {| inject := inject o; disposer := disposer o; initializer := initializer o;
     logging := logging o; lazyLoad := true; isFunction := isFunction o;
     isInstance := isInstance o; priority := priority o;
     upsert_option := upsert_option o |}.

Definition with_disposer (h : hook) (o : Options) : Options :=
  {| inject := inject o; disposer := Some h; initializer := initializer o;
     logging := logging o; lazyLoad := lazyLoad o; isFunction := isFunction o;
     isInstance := isInstance o; priority := priority o;
     upsert_option := upsert_option o |}.

Definition with_inject (l : list value) (o : Options) : Options :=
  {| inject := Some l; disposer := disposer o; initializer := initializer o;
     logging := logging o; lazyLoad := lazyLoad o; isFunction := isFunction o;
     isInstance := isInstance o; priority := priority o;
     upsert_option := upsert_option o |}.

Definition with_isFunction (o : Options) : Options :=
  {| inject := inject o; disposer := disposer o; initializer := initializer o;
     logging := logging o; lazyLoad := lazyLoad o; isFunction := true;
     isInstance := isInstance o; priority := priority o;
     upsert_option := upsert_option o |}.

Definition with_priority (p : Z) (o : Options) : Options :=
  {| inject := inject o; disposer := disposer o; initializer := initializer o;
     logging := logging o; lazyLoad := lazyLoad o; isFunction := isFunction o;
     isInstance := isInstance o; priority := Some p;
     upsert_option := upsert_option o |}.

Definition with_upsert (o : Options) : Options :=
  {| inject := inject o; disposer := disposer o; initializer := initializer o;
     logging := logging o; lazyLoad := lazyLoad o; isFunction := isFunction o;
     isInstance := isInstance o; priority := priority o;
     upsert_option := true |}.

Definition described (n : string) (payload : value) (o : Options) : ServiceOptions :=
  {| name := VStr n; service := payload; options := Some o |}.

Definition with_initializer (h : hook) (o : Options) : Options :=
  {| inject := inject o; disposer := disposer o; initializer := Some h;
     logging := logging o; lazyLoad := lazyLoad o; isFunction := isFunction o;
     isInstance := isInstance o; priority := priority o;
     upsert_option := upsert_option o |}.

Definition with_isInstance (o : Options) : Options :=
  {| inject := inject o; disposer := disposer o; initializer := initializer o;
     logging := logging o; lazyLoad := lazyLoad o; isFunction := isFunction o;
     isInstance := true; priority := priority o;
     upsert_option := upsert_option o |}.

Definition rejecting_hook (i : nat) : hook :=
  {| hook_id := i; hook_run := Rejects (VStr "initializer failed") |}.

Definition module_file (file_n : string) (s : ServiceOptions) : file :=
  {| file_name := file_n; file_import := ImportDefault (ExportService s) |}.

Definition prioritized (n : string) (p : Z) : ServiceOptions :=
  described n Clock (with_priority p no_options).

(** A directory whose loadable files carry the priorities 1, 5 and 3. *)
Definition directory_1_5_3 : list file :=
  [module_file "a.js" (prioritized "a" 1);
   module_file "!skipped.js" (prioritized "x" 9);
   module_file "b.js" (prioritized "b" 5);
   module_file "notes.txt" (prioritized "y" 7);
   module_file "c.js" (prioritized "c" 3)].

(** A container in which the lazy services "A" and "B" are registered. *)
Definition container_A_B : Container :=
  with_services [("A", described "A" Clock (with_lazy no_options));
                 ("B", described "B" Clock (with_lazy no_options))]
                container0.

(** A directory that replaces "A" (with [upsert]) and then offers "B"
    (without). *)
Definition directory_A_B : list file :=
  [module_file "a.js" (described "A" answer (with_upsert (with_isFunction no_options)));
   module_file "b.js" (described "B" answer (with_isFunction no_options))].

(** A directory that offers a new service "C" and then "B" (without
    [upsert]). *)
Definition directory_C_B : list file :=
  [module_file "c.js" (described "C" answer (with_isFunction no_options));
   module_file "b.js" (described "B" answer (with_isFunction no_options))].

End Sample.

Unset Implicit Arguments.

(** ** Facts about the [Map] *)

Section JsMapFacts.
Variable V : Type.
Implicit Types (m : JsMap.t V) (k : string) (v : V).

Lemma get_set_same k v m : JsMap.get k (JsMap.set k v m) = Some v.
Proof.
  induction m as [|[k' v'] m IH]; simpl.
  - now rewrite String.eqb_refl.
  - destruct (k' =? k) eqn:E; simpl; rewrite E; auto.
Qed.

Lemma get_set_other k k' v m :
  k' <> k -> JsMap.get k' (JsMap.set k v m) = JsMap.get k' m.
Proof.
  intros Hne. induction m as [|[k0 v0] m IH]; simpl.
  - destruct (k =? k') eqn:E; auto. apply String.eqb_eq in E. congruence.
  - destruct (k0 =? k) eqn:E; simpl.
    + apply String.eqb_eq in E. subst k0.
      destruct (k =? k') eqn:E'; auto.
      apply String.eqb_eq in E'. congruence.
    + destruct (k0 =? k'); auto.
Qed.

Lemma set_absent k v m : JsMap.has k m = false -> JsMap.set k v m = m ++ [(k, v)].
Proof.
  unfold JsMap.has. induction m as [|[k' v'] m IH]; simpl; auto.
  destruct (k' =? k); [discriminate|]. intros H. now rewrite IH.
Qed.

Lemma get_delete_same k m : JsMap.get k (JsMap.delete k m) = None.
Proof.
  unfold JsMap.delete. induction m as [|[k' v'] m IH]; simpl; auto.
  destruct (k' =? k) eqn:E; simpl; auto. now rewrite E.
Qed.

Lemma has_delete_same k m : JsMap.has k (JsMap.delete k m) = false.
Proof. unfold JsMap.has. now rewrite get_delete_same. Qed.

Lemma delete_absent k m : JsMap.has k m = false -> JsMap.delete k m = m.
Proof.
  unfold JsMap.has, JsMap.delete. induction m as [|[k' v'] m IH]; simpl; auto.
  destruct (k' =? k); [discriminate|]. simpl. intros H. now rewrite IH.
Qed.
End JsMapFacts.

Lemma typeof_string (v : value) : typeof v = TString <-> exists s, v = VStr s.
Proof.
  split.
  - destruct v; simpl; try discriminate. eauto.
  - now intros [s ->].
Qed.

Lemma typeof_function (v : value) : typeof v = TFunction <-> exists f, v = VFun f.
Proof.
  split.
  - destruct v; simpl; try discriminate. eauto.
  - now intros [f ->].
Qed.

(** ** The static instance *)

Lemma instance_in_range (history : list (option ConstructorOptions)) :
  forall i, getInstance (after_constructions history) = Some i ->
            i < List.length (containers (after_constructions history)).
Proof.
  unfold after_constructions.
  induction history as [|o history IH] using rev_ind; simpl.
  - discriminate.
  - intros i. rewrite fold_left_app. simpl.
    unfold getInstance. simpl. intros [= <-].
    rewrite length_app. simpl. lia.
Qed.

(** C10.  After any series of earlier constructions, [new Container(options)]
    leaves [Container.getInstance()] returning the container just built: a
    container that did not exist before, with an empty service map, and not
    the one [getInstance] returned until then. *)
Theorem constructor_overwrites_instance
        (history : list (option ConstructorOptions)) (opts : option ConstructorOptions) :
  let p := after_constructions history in
  let built := fst (new_Container opts p) in
  let p' := snd (new_Container opts p) in
  getInstance p' = Some built
  /\ nth_error (containers p) built = None
  /\ (exists c, nth_error (containers p') built = Some c
                /\ self c = built /\ services c = [])
  /\ getInstance p' <> getInstance p.
Proof.
  cbv zeta. simpl. unfold getInstance at 1. simpl.
  repeat split.
  - apply nth_error_None. lia.
  - eexists. split.
    + rewrite nth_error_app2 by lia. rewrite Nat.sub_diag. reflexivity.
    + split; reflexivity.
  - intros H. symmetry in H. apply instance_in_range in H. lia.
Qed.

(** ** How [register] changes the container *)

Lemma keeps_ret {A} (a : A) : keeps (ret a).
Proof. now intros c w. Qed.

Lemma keeps_throw {A} (e : error) : keeps (@throw A e).
Proof. now intros c w. Qed.

Lemma keeps_this : keeps this.
Proof. now intros c w. Qed.

Lemma keeps_log_event (e : event) : keeps (log_event e).
Proof. now intros c w. Qed.

Lemma keeps_lift_world {A} (f : world -> A * world) : keeps (lift_world f).
Proof. intros c w. unfold lift_world. now destruct (f w). Qed.

Lemma keeps_bind {A B} (m : M A) (k : A -> M B) :
  keeps m -> (forall a, keeps (k a)) -> keeps (bind m k).
Proof.
  intros Hm Hk c w. unfold bind. specialize (Hm c w).
  destruct (m c w) as [[[e|a] c1] w1]; simpl in *; subst; auto.
  apply Hk.
Qed.

Lemma keeps_try_catch {A} (m : M A) (handler : error -> M A) :
  keeps m -> (forall e, keeps (handler e)) -> keeps (try_catch m handler).
Proof.
  intros Hm Hh c w. unfold try_catch. specialize (Hm c w).
  destruct (m c w) as [[[e|a] c1] w1]; simpl in *; subst; auto.
  apply Hh.
Qed.

Lemma keeps_call_hook (ev : event) (h : hook) : keeps (call_hook ev h).
Proof.
  unfold call_hook. apply keeps_bind; [apply keeps_log_event|].
  intros _. destruct (hook_run h); auto using keeps_ret, keeps_throw.
Qed.

Lemma keeps_await_hook (r : hook_result) : keeps (await_hook r).
Proof. destruct r; simpl; auto using keeps_ret, keeps_throw. Qed.

Create HintDb keeps.
#[export] Hint Resolve keeps_ret keeps_throw keeps_this keeps_log_event
  keeps_lift_world keeps_call_hook keeps_await_hook : keeps.

Lemma refuse_name_not_resolved (w : world) (n : value) (x : nat) :
  refuse_name w n <> Resolved x.
Proof. unfold refuse_name. destruct (conversion_error w n); discriminate. Qed.

(** Closes the cases of [register] in which the name is no string, when the
    goal or a hypothesis needs the call to have gone on. *)
Ltac name_refused :=
  try discriminate;
  try (intros H; inversion H; exfalso; eapply refuse_name_not_resolved; eauto; fail);
  try (unfold refuse_name;
       match goal with
       | |- context [conversion_error ?w ?v] => destruct (conversion_error w v)
       end; reflexivity).

Lemma keeps_result {A} (m : M A) c w r c' w' :
  keeps m -> m c w = (r, c', w') -> c' = c.
Proof. intros Hm H. specialize (Hm c w). rewrite H in Hm. exact Hm. Qed.

Section RegisterFacts.
Variable funs : fid -> callable.

Lemma keeps_construct f args : keeps (construct funs f args).
Proof.
  unfold construct. destruct f; auto with keeps.
  destruct (funs f); auto with keeps.
  - apply keeps_bind; auto with keeps. intros a.
    apply keeps_bind; auto with keeps. intros _.
    destruct (ctor args); auto with keeps.
  - apply keeps_bind; auto with keeps. intros a.
    apply keeps_bind; auto with keeps. intros _.
    destruct (body args); auto with keeps.
Qed.

Lemma keeps_call f args : keeps (call funs f args).
Proof.
  unfold call. destruct f; auto with keeps.
  destruct (funs f); auto with keeps;
    (apply keeps_bind; auto with keeps; intros _;
     destruct (body args); auto with keeps).
Qed.

Lemma keeps_createServiceInstance s : keeps (createServiceInstance funs s).
Proof.
  unfold createServiceInstance. apply keeps_try_catch; auto with keeps.
  destruct (flag_of isFunction s); [apply keeps_call|].
  destruct (flag_of isInstance s); [apply keeps_ret|apply keeps_construct].
Qed.

Lemma keeps_announce n s : keeps (announce n s).
Proof.
  unfold announce. apply keeps_bind; auto with keeps. intros c.
  destruct (_ && _); auto with keeps.
  destruct (option_of logging s) as [[| |h]|]; auto with keeps.
  apply keeps_bind; auto with keeps.
Qed.

Lemma keeps_initialize s : keeps (initialize s).
Proof.
  unfold initialize. apply keeps_bind; auto with keeps. intros c.
  destruct (option_of initializer s); auto with keeps.
  apply keeps_bind; auto with keeps.
Qed.

Lemma keeps_after_store n s : keeps (announce n s ;; initialize s).
Proof.
  apply keeps_bind; [apply keeps_announce|]. intros _. apply keeps_initialize.
Qed.

(** The entry [register] stores: the description itself when lazy,
    otherwise [{ service: v }] for the value just created. *)
Lemma register_one_stores n s c w r c' w' :
  register_one funs n s c w = (inr r, c', w') ->
  (flag_of lazyLoad s = true /\
   c' = with_services (JsMap.set n s (services c)) c)
  \/ (flag_of lazyLoad s = false /\
      exists v w1, createServiceInstance funs s c w = (inr v, c, w1)
                   /\ c' = with_services (JsMap.set n (realized v) (services c)) c).
Proof.
  unfold register_one. intros H.
  destruct (flag_of lazyLoad s) eqn:Hlazy.
  - left. split; [reflexivity|].
    unfold bind at 1 2 in H. simpl in H.
    apply keeps_result in H; [exact H | apply keeps_after_store].
  - right. split; [reflexivity|].
    unfold bind at 1 2 in H.
    destruct (createServiceInstance funs s c w) as [[[e|v] c1] w1] eqn:Hcreate.
    + discriminate.
    + assert (c1 = c)
        by (eapply keeps_result; [apply keeps_createServiceInstance | exact Hcreate]).
      subst c1.
      exists v, w1. split; [reflexivity|].
      simpl in H. unfold bind at 1 in H. simpl in H.
      apply keeps_result in H; [exact H | apply keeps_after_store].
Qed.

Lemma register_one_entry n s c w r c' w' :
  register_one funs n s c w = (inr r, c', w') ->
  exists entry, c' = with_services (JsMap.set n entry (services c)) c.
Proof.
  intros H. apply register_one_stores in H.
  destruct H as [[_ ->] | [_ (v & w1 & _ & ->)]]; eauto.
Qed.

(** Whatever becomes of one loop iteration, the container is as before or
    has gained the one entry. *)
Lemma register_one_any n s c w r c' w' :
  register_one funs n s c w = (r, c', w') ->
  c' = c \/ exists entry, c' = with_services (JsMap.set n entry (services c)) c.
Proof.
  unfold register_one. intros H.
  destruct (flag_of lazyLoad s).
  - right. exists s. unfold bind at 1 2 in H. simpl in H.
    apply keeps_result in H; [exact H | apply keeps_after_store].
  - unfold bind at 1 2 in H.
    destruct (createServiceInstance funs s c w) as [[[e|v] c1] w1] eqn:Hcreate.
    + left. assert (c1 = c)
        by (eapply keeps_result; [apply keeps_createServiceInstance | exact Hcreate]).
      congruence.
    + assert (c1 = c)
        by (eapply keeps_result; [apply keeps_createServiceInstance | exact Hcreate]).
      subst c1. right. exists (realized v).
      simpl in H. unfold bind at 1 in H. simpl in H.
      apply keeps_result in H; [exact H | apply keeps_after_store].
Qed.

(** A batch is processed front to back: the rest runs only once the front
    has gone through. *)
Lemma register_app l1 l2 c w :
  register funs (l1 ++ l2) c w =
  match register funs l1 c w with
  | (Resolved _, c', w') => register funs l2 c' w'
  | failed => failed
  end.
Proof.
  revert c w. induction l1 as [|s l1 IH]; intros c w; simpl; auto.
  destruct (name s); auto; try name_refused.
  destruct (JsMap.has s0 (services c)); auto.
  destruct (register_one funs s0 s c w) as [[[e|u] c'] w']; auto.
Qed.

(** The keys of the map after a batch went through: the old keys, then the
    names of the batch in the order given. *)
Lemma register_resolved_keys l c w x c' w' :
  register funs l c w = (Resolved x, c', w') ->
  map VStr (JsMap.keys (services c')) =
  map VStr (JsMap.keys (services c)) ++ map name l.
Proof.
  revert c w. induction l as [|s l IH]; intros c w; simpl.
  - intros [= _ <- _]. now rewrite app_nil_r.
  - destruct (name s) eqn:Hname; name_refused.
    destruct (JsMap.has s0 (services c)) eqn:Hhas; try discriminate.
    destruct (register_one funs s0 s c w) as [[[e|u] c1] w1] eqn:Hone; try discriminate.
    intros H. apply IH in H. rewrite H.
    apply register_one_entry in Hone. destruct Hone as [entry ->]. simpl.
    rewrite set_absent by assumption.
    unfold JsMap.keys. rewrite !map_app. simpl. now rewrite <- app_assoc.
Qed.

Lemma register_self l c w x c' w' :
  register funs l c w = (Resolved x, c', w') -> x = self c /\ self c' = self c.
Proof.
  revert c w. induction l as [|s l IH]; intros c w; simpl.
  - intros [= <- <- _]. auto.
  - destruct (name s) eqn:Hname; name_refused.
    destruct (JsMap.has s0 (services c)) eqn:Hhas; try discriminate.
    destruct (register_one funs s0 s c w) as [[[e|u] c1] w1] eqn:Hone; try discriminate.
    intros H. apply IH in H.
    apply register_one_entry in Hone. destruct Hone as [entry ->]. simpl in H. exact H.
Qed.
End RegisterFacts.

(** An eager service whose constructor throws: the wrapped error stays
    inside the executor, the promise of [register] never settles, and the
    map is as before. *)
Example register_eager_broken :
  register Sample.funs [Sample.described "Broken" Sample.Broken Sample.no_options]
           Sample.container0 Sample.world0
  = (NeverSettles (CreatingService (VStr "Broken") (Thrown (VStr "broken"))),
     Sample.container0,
     emit (EvNew 3 [] 0) (snd (alloc Sample.world0))).
Proof. reflexivity. Qed.

(** ** Resolving *)

Section ResolveFacts.
Variable funs : fid -> callable.

Lemma register_single d n c w x c1 w1 :
  name d = VStr n ->
  register funs [d] c w = (Resolved x, c1, w1) ->
  JsMap.has n (services c) = false
  /\ exists r, register_one funs n d c w = (inr r, c1, w1).
Proof.
  simpl. intros ->.
  destruct (JsMap.has n (services c)); [discriminate|].
  destruct (register_one funs n d c w) as [[[e|u] c'] w']; [discriminate|].
  intros [= _ <- <-]. eauto.
Qed.



(** A stored value that is no function comes back as it is, and nothing
    else happens. *)
Lemma resolve_stored k entry c w :
  services_get k c = Some entry ->
  typeof (service entry) <> TFunction ->
  resolve funs k c w = (Resolved (service entry), c, w).
Proof.
  intros Hget Hty. unfold resolve. rewrite Hget.
  destruct (typeof (service entry)); congruence.
Qed.
End ResolveFacts.




(** Registering an eager service stores [{ service: v }] for the value [v]
    the instantiation produced, and nothing of the description. *)
Lemma register_eager_stores
      (funs : fid -> callable) (d : ServiceOptions) (n : string)
      (c c1 : Container) (w w1 : world) (x : nat) :
  name d = VStr n ->
  flag_of lazyLoad d = false ->
  register funs [d] c w = (Resolved x, c1, w1) ->
  exists v w0,
    createServiceInstance funs d c w = (inr v, c, w0)
    /\ services_get (VStr n) c1 = Some (realized v).
Proof.
  intros Hname Heager Hreg.
  edestruct register_single as [_ [r Hone]]; [exact Hname | exact Hreg |].
  apply register_one_stores in Hone.
  destruct Hone as [[Hlazy _] | [_ (v & w0 & Hcreate & ->)]]; [congruence|].
  exists v, w0. split; [exact Hcreate|]. simpl. apply get_set_same.
Qed.

(** C3, as amended.  Once an eager service has been registered, the map holds
    the value realized at registration, and when that value is not itself a
    function every [resolve] on the name returns exactly it and touches
    neither the container nor the world: a second [resolve] starts from the
    same state and returns the same value. *)
Theorem eager_resolve_returns_stored_value
        (funs : fid -> callable) (d : ServiceOptions) (n : string)
        (c c1 : Container) (w w1 : world) :
  name d = VStr n ->
  flag_of lazyLoad d = false ->
  register funs [d] c w = (Resolved (self c), c1, w1) ->
  exists v w0,
    createServiceInstance funs d c w = (inr v, c, w0)
    /\ services_get (VStr n) c1 = Some (realized v)
    /\ (typeof v <> TFunction ->
        forall w2, resolve funs (VStr n) c1 w2 = (Resolved v, c1, w2)).
Proof.
  intros Hname Heager Hreg.
  destruct (register_eager_stores funs d n c c1 w w1 _ Hname Heager Hreg)
    as (v & w0 & Hcreate & Hget).
  exists v, w0. split; [exact Hcreate|]. split; [exact Hget|].
  intros Hty w2. apply (resolve_stored funs (VStr n) (realized v) c1 w2 Hget Hty).
Qed.

Lemma eager_resolve_returns_stored_value_witness :
  exists v w0,
    createServiceInstance Sample.funs
      (Sample.described "Clock" Sample.Clock Sample.no_options)
      Sample.container0 Sample.world0 = (inr v, Sample.container0, w0)
    /\ services_get (VStr "Clock")
         (snd (fst (register Sample.funs
                      [Sample.described "Clock" Sample.Clock Sample.no_options]
                      Sample.container0 Sample.world0)))
       = Some (realized v)
    /\ (typeof v <> TFunction ->
        forall w2,
          resolve Sample.funs (VStr "Clock")
            (snd (fst (register Sample.funs
                         [Sample.described "Clock" Sample.Clock Sample.no_options]
                         Sample.container0 Sample.world0))) w2
          = (Resolved v,
             snd (fst (register Sample.funs
                         [Sample.described "Clock" Sample.Clock Sample.no_options]
                         Sample.container0 Sample.world0)), w2)).
Proof.
  apply (eager_resolve_returns_stored_value Sample.funs
           (Sample.described "Clock" Sample.Clock Sample.no_options)
           "Clock" Sample.container0 _ Sample.world0
           (snd (register Sample.funs
                   [Sample.described "Clock" Sample.Clock Sample.no_options]
                   Sample.container0 Sample.world0)));
    reflexivity.
Defined.

(** The two [resolve] calls of the example: the same object both times. *)
Example eager_clock_resolved_twice :
  let registered := register Sample.funs
                      [Sample.described "Clock" Sample.Clock Sample.no_options]
                      Sample.container0 Sample.world0 in
  let first := resolve Sample.funs (VStr "Clock") (snd (fst registered)) (snd registered) in
  let second := resolve Sample.funs (VStr "Clock") (snd (fst first)) (snd first) in
  fst (fst first) = Resolved (VObj 0) /\ fst (fst second) = Resolved (VObj 0).
Proof. split; reflexivity. Qed.

(** C3, counterexample.  The eager function-kind service
    [{ name: "mk", service: makeClock, options: { isFunction: true } }] is
    registered and the map holds the value [makeClock()] returned, the class
    [Clock]; yet [resolve("mk")] does not return that value: it runs
    [new Clock(null)], and a second [resolve] builds yet another object. *)
Lemma eager_function_value_is_constructed_on_resolve :
  let mk := Sample.described "mk" Sample.makeClock (Sample.with_isFunction Sample.no_options) in
  let registered := register Sample.funs [mk] Sample.container0 Sample.world0 in
  let c1 := snd (fst registered) in
  let first := resolve Sample.funs (VStr "mk") c1 (snd registered) in
  let second := resolve Sample.funs (VStr "mk") (snd (fst first)) (snd first) in
  flag_of lazyLoad mk = false
  /\ fst (fst registered) = Resolved 0
  /\ services_get (VStr "mk") c1 = Some (realized Sample.Clock)
  /\ fst (fst first) <> Resolved Sample.Clock
  /\ fst (fst first) <> fst (fst second).
Proof.
  cbv zeta. repeat split; try reflexivity; vm_compute; discriminate.
Qed.

(** The lazy path of [resolve] is [new service(inject ?? null)] whatever the
    flags of the description say. *)
Lemma resolve_function_entry
      (funs : fid -> callable) (k : value) (entry : NoNameServiceOptions)
      (c : Container) (w : world) :
  services_get k c = Some entry ->
  typeof (service entry) = TFunction ->
  resolve funs k c w =
  match construct funs (service entry) [resolve_argument entry] c w with
  | (inl e, c', w') => (Rejected e, c', w')
  | (inr v, c', w') => (Resolved v, c', w')
  end.
Proof.
  intros Hget Hty. unfold resolve. now rewrite Hget, Hty.
Qed.

(** C2, the code at a failing input.  For the lazy class-kind service
    [{ name: "Pair", service: Clock, options: { lazyLoad: true, inject: [1, 2] } }]
    [resolve] calls the constructor with the one argument [[1, 2]], where the
    instantiation used at registration time calls it with the two arguments
    [1] and [2]. *)
Theorem lazy_resolve_passes_inject_unspread :
  let pair := Sample.described "Pair" Sample.Clock
                (Sample.with_lazy (Sample.with_inject [VNum 1; VNum 2] Sample.no_options)) in
  let registered := register Sample.funs [pair] Sample.container0 Sample.world0 in
  let c1 := snd (fst registered) in
  let w1 := snd registered in
  fst (fst registered) = Resolved 0
  /\ resolve Sample.funs (VStr "Pair") c1 w1 =
     (Resolved (VObj 0), c1,
      emit (EvNew 0 [VArr [VNum 1; VNum 2]] 0) (snd (alloc w1)))
  /\ createServiceInstance Sample.funs pair c1 w1 =
     (inr (VObj 0), c1,
      emit (EvNew 0 [VNum 1; VNum 2] 0) (snd (alloc w1))).
Proof.
  cbv zeta. repeat split; reflexivity.
Qed.

(** The same path on a lazy function-kind service: the function [answer] is
    constructed with [new], so [resolve] yields a new object, where the
    registration-time strategy calls it and yields its result [42]. *)
Lemma lazy_resolve_constructs_function_payload :
  let f := Sample.described "answer" Sample.answer
             (Sample.with_lazy (Sample.with_isFunction Sample.no_options)) in
  let registered := register Sample.funs [f] Sample.container0 Sample.world0 in
  let c1 := snd (fst registered) in
  let w1 := snd registered in
  resolve Sample.funs (VStr "answer") c1 w1 =
    (Resolved (VObj 0), c1, emit (EvNew 1 [VNull] 0) (snd (alloc w1)))
  /\ createServiceInstance Sample.funs f c1 w1 =
     (inr (VNum 42), c1, emit (EvCall 1 []) w1).
Proof.
  cbv zeta. split; reflexivity.
Qed.

(** ** Disposing *)

(** An entry without a disposer is simply removed. *)
Lemma dispose_without_disposer
      (k : value) (entry : NoNameServiceOptions) (c : Container) (w : world) :
  services_get k c = Some entry ->
  option_of disposer entry = None ->
  dispose k c w = (Resolved tt, services_delete k c, w).
Proof.
  intros Hget Hnone. unfold dispose. now rewrite Hget, Hnone.
Qed.

Lemma services_has_delete (k : value) (c : Container) :
  services_has k (services_delete k c) = false.
Proof.
  unfold services_has, services_get, services_delete.
  destruct k; auto. simpl. now rewrite get_delete_same.
Qed.

(** Whatever an eager service declared, disposing it calls no hook. *)
Lemma dispose_eager_calls_no_hook
      (funs : fid -> callable) (d : ServiceOptions) (n : string)
      (c c1 : Container) (w w1 w2 : world) (x : nat) :
  name d = VStr n ->
  flag_of lazyLoad d = false ->
  register funs [d] c w = (Resolved x, c1, w1) ->
  dispose (VStr n) c1 w2 = (Resolved tt, services_delete (VStr n) c1, w2).
Proof.
  intros Hname Heager Hreg.
  destruct (register_eager_stores funs d n c c1 w w1 x Hname Heager Hreg)
    as (v & w0 & _ & Hget).
  now apply dispose_without_disposer with (entry := realized v).
Qed.

(** C4, the code at a failing input.  The eager service
    [{ name: "Clock", service: Clock, options: { disposer } }] is stored as
    [{ service: instance }] without its options, and [dispose("Clock")]
    removes it without calling the disposer: the trace gains no event. *)
Theorem eager_entry_loses_its_disposer :
  let clock := Sample.described "Clock" Sample.Clock
                 (Sample.with_disposer (Sample.quiet_hook 7) Sample.no_options) in
  let registered := register Sample.funs [clock] Sample.container0 Sample.world0 in
  let c1 := snd (fst registered) in
  let w1 := snd registered in
  option_of disposer clock = Some (Sample.quiet_hook 7)
  /\ fst (fst registered) = Resolved 0
  /\ services_get (VStr "Clock") c1 = Some (realized (VObj 0))
  /\ option_of disposer (realized (VObj 0)) = None
  /\ dispose (VStr "Clock") c1 w1 =
     (Resolved tt, services_delete (VStr "Clock") c1, w1)
  /\ events w1 = [EvNew 0 [] 0; EvConsoleLog "Clock"].
Proof.
  cbv zeta. repeat split; reflexivity.
Qed.

(** ** Replacing *)

(** With [key] unbound, [upsert] on a registered name stops at the
    reference to it: nothing is disposed, nothing is registered. *)
Lemma upsert_registered_name
      (funs : fid -> callable) (s : ServiceOptions) (c : Container) (w : world) :
  services_has (name s) c = true ->
  JsMap.get "key" (globals w) = None ->
  upsert funs s c w = (Rejected (ReferenceError "key"), c, w).
Proof.
  intros Hhas Hkey. unfold upsert. now rewrite Hhas, Hkey.
Qed.

(** C1, the code at a failing input.  With the lazy service "Clock" (which
    has a disposer) registered, [upsert] of a new description under the same
    name rejects with a [ReferenceError]; the disposer was not called (the
    trace is unchanged), and the name still resolves through the old
    description, not to the new service's value [42]. *)
Theorem upsert_of_registered_name_rejects :
  let old := Sample.described "Clock" Sample.Clock
               (Sample.with_lazy (Sample.with_disposer (Sample.quiet_hook 7) Sample.no_options)) in
  let new := Sample.described "Clock" Sample.answer
               (Sample.with_isFunction Sample.no_options) in
  let registered := register Sample.funs [old] Sample.container0 Sample.world0 in
  let c1 := snd (fst registered) in
  let w1 := snd registered in
  fst (fst registered) = Resolved 0
  /\ services_has (name new) c1 = true
  /\ upsert Sample.funs new c1 w1 = (Rejected (ReferenceError "key"), c1, w1)
  /\ services_get (VStr "Clock") c1 = Some old
  /\ fst (fst (resolve Sample.funs (VStr "Clock") c1 w1)) = Resolved (VObj 0).
Proof.
  cbv zeta. repeat split; reflexivity.
Qed.

(** C5, as amended.  For a registered name, [dispose] removes the name when
    the entry has no disposer, or has one that returns (even a promise that
    rejects later: it is not awaited); when the disposer throws, [dispose]
    rejects with what was thrown and the map keeps the entry.  In each case
    the disposer, if any, was called with the container and the entry. *)
Theorem dispose_removes_unless_disposer_throws
        (k : value) (entry : NoNameServiceOptions) (c : Container) (w : world) :
  services_get k c = Some entry ->
  (option_of disposer entry = None ->
   dispose k c w = (Resolved tt, services_delete k c, w))
  /\ (forall h, option_of disposer entry = Some h ->
        let w' := emit (EvDisposer (hook_id h) (self c) entry) w in
        match hook_run h with
        | Throws e => dispose k c w = (Rejected (Thrown e), c, w')
        | _ => dispose k c w = (Resolved tt, services_delete k c, w')
        end)
  /\ services_has k (services_delete k c) = false.
Proof.
  intros Hget. split; [|split].
  - now apply dispose_without_disposer.
  - intros h Hh. unfold dispose. rewrite Hget, Hh.
    unfold bind, call_hook, bind, log_event, ret, throw.
    destruct (hook_run h); reflexivity.
  - apply services_has_delete.
Qed.

Lemma dispose_removes_unless_disposer_throws_witness :
  let ticker := Sample.described "Ticker" Sample.Clock
                  (Sample.with_lazy (Sample.with_disposer (Sample.quiet_hook 7) Sample.no_options)) in
  let c1 := with_services [("Ticker", ticker)] Sample.container0 in
  dispose (VStr "Ticker") c1 Sample.world0 =
  (Resolved tt, services_delete (VStr "Ticker") c1,
   emit (EvDisposer 7 0 ticker) Sample.world0).
Proof.
  cbv zeta.
  apply (proj1 (proj2 (dispose_removes_unless_disposer_throws
                         (VStr "Ticker")
                         (Sample.described "Ticker" Sample.Clock
                            (Sample.with_lazy
                               (Sample.with_disposer (Sample.quiet_hook 7) Sample.no_options)))
                         (with_services
                            [("Ticker",
                              Sample.described "Ticker" Sample.Clock
                                (Sample.with_lazy
                                   (Sample.with_disposer (Sample.quiet_hook 7)
                                      Sample.no_options)))]
                            Sample.container0)
                         Sample.world0 eq_refl))
               (Sample.quiet_hook 7) eq_refl).
Defined.

(** C5, counterexample.  "Ticker" is registered lazily with a disposer that
    throws; [dispose("Ticker")] rejects and the name is still there. *)
Lemma dispose_keeps_entry_when_disposer_throws :
  let ticker := Sample.described "Ticker" Sample.Clock
                  (Sample.with_lazy (Sample.with_disposer (Sample.throwing_hook 7) Sample.no_options)) in
  let registered := register Sample.funs [ticker] Sample.container0 Sample.world0 in
  let disposed := dispose (VStr "Ticker") (snd (fst registered)) (snd registered) in
  fst (fst registered) = Resolved 0
  /\ services_has (VStr "Ticker") (snd (fst registered)) = true
  /\ fst (fst disposed) = Rejected (Thrown (VStr "disposer failed"))
  /\ services_has (VStr "Ticker") (snd (fst disposed)) <> false.
Proof.
  cbv zeta. repeat split; try reflexivity. vm_compute. discriminate.
Qed.

(** ** Names *)



(** Which names can be converted: everything but symbols, the objects the
    world lists as unprintable, and arrays holding one of these. *)
Lemma conversion_error_primitive (w : world) (v : value) :
  match v with
  | VUndefined | VNull | VBool _ | VNum _ | VStr _ | VFun _ =>
      conversion_error w v = None
  | VSymbol _ => conversion_error w v <> None
  | VObj a => conversion_error w v = None <->
              (forall e, ~ In (a, e) (unprintable w))
  | VArr _ => True
  end.
Proof.
  destruct v; simpl; auto; try discriminate.
  induction (unprintable w) as [|[a' e'] l IH]; simpl.
  - split; auto.
  - destruct (Nat.eqb a' a) eqn:E.
    + apply Nat.eqb_eq in E. subst a'. split; [discriminate|].
      intros H. exfalso. apply (H e'). now left.
    + apply Nat.eqb_neq in E. rewrite IH. split.
      * intros H e [[= -> _] | Hin]; [congruence | now apply (H e)].
      * intros H e Hin. apply (H e). now right.
Qed.


(** ** Sorting by priority *)

Section SortFacts.

Lemma array_insert_perm (x : ServiceOptions) (l : list ServiceOptions) :
  Permutation (x :: l) (array_insert compare_priority x l).
Proof.
  induction l as [|y l IH]; simpl; auto.
  destruct (compare_priority x y <=? 0)%Z; auto.
  rewrite perm_swap. now constructor.
Qed.

Lemma array_sort_perm (l : list ServiceOptions) :
  Permutation l (array_sort compare_priority l).
Proof.
  induction l as [|x l IH]; simpl; auto.
  rewrite <- array_insert_perm. now constructor.
Qed.




End SortFacts.

(** Priorities 1, 5, 3 come out as 5, 3, 1. *)
Example sort_modules_1_5_3 :
  map priority_of
      (sort_modules
         [Sample.described "a" Sample.Clock (Sample.with_priority 1 Sample.no_options);
          Sample.described "b" Sample.Clock (Sample.with_priority 5 Sample.no_options);
          Sample.described "c" Sample.Clock (Sample.with_priority 3 Sample.no_options)])
  = [5; 3; 1]%Z.
Proof. reflexivity. Qed.

(** ** Auto-loading *)

Lemma dispose_resolved (k : value) (c c' : Container) (w w' : world) (u : unit) :
  dispose k c w = (Resolved u, c', w') -> c' = services_delete k c.
Proof.
  unfold dispose. destruct (services_get k c) as [entry|]; [|discriminate].
  destruct (option_of disposer entry) as [h|].
  - unfold bind, call_hook, bind, log_event, ret, throw.
    destruct (hook_run h); intros H; inversion H; reflexivity.
  - intros H. inversion H. reflexivity.
Qed.

Lemma dispose_not_resolved (k : value) (c c' : Container) (w w' : world) (e : error) :
  dispose k c w = (Rejected e, c', w') \/ dispose k c w = (NeverSettles e, c', w') ->
  c' = c.
Proof.
  unfold dispose. destruct (services_get k c) as [entry|].
  - destruct (option_of disposer entry) as [h|].
    + unfold bind, call_hook, bind, log_event, ret, throw.
      destruct (hook_run h); intros [H|H]; inversion H; reflexivity.
    + intros [H|H]; inversion H.
  - intros [H|H]; inversion H; reflexivity.
Qed.

Lemma module_of_some (f : file) (m : ServiceOptions) :
  module_of f = Some m ->
  exists d, file_import f = ImportDefault d /\ as_module d = Some m.
Proof.
  unfold module_of. destruct (file_import f) as [e|d]; [discriminate|]. eauto.
Qed.

(** The loop goes through the files front to back. *)
Lemma scan_app (files rest : list file) (acc : list ServiceOptions)
      (c : Container) (w : world) :
  scan (files ++ rest) acc c w =
  match scan files acc c w with
  | (Resolved ms, c1, w1) => scan rest ms c1 w1
  | failed => failed
  end.
Proof.
  revert acc c w. induction files as [|f files IH]; intros acc c w; simpl; auto.
  destruct (file_import f) as [e|d]; auto.
  destruct (as_module d) as [m|]; auto.
  destruct (services_has (name m) c); auto.
  destruct (flag_of upsert_option m); auto.
  destruct (dispose (name m) c w) as [[[u|e|e] c'] w']; auto.
Qed.

(** When the loop completes, the array holds the modules of the files, in
    the order of the files. *)
Lemma scan_modules (files : list file) (acc ms : list ServiceOptions)
      (c c1 : Container) (w w1 : world) :
  scan files acc c w = (Resolved ms, c1, w1) ->
  map Some ms = map Some acc ++ map module_of files.
Proof.
  revert acc c w. induction files as [|f files IH]; intros acc c w; simpl.
  - intros [= <- _ _]. now rewrite app_nil_r.
  - unfold module_of. destruct (file_import f) as [e|d]; [discriminate|].
    destruct (as_module d) as [m|]; [|discriminate].
    assert (Hstep : forall c' w',
               scan files (acc ++ [m]) c' w' = (Resolved ms, c1, w1) ->
               map Some ms = map Some acc ++ Some m :: map module_of files).
    { intros c' w' H. apply IH in H. rewrite H, map_app, <- app_assoc. reflexivity. }
    destruct (services_has (name m) c); [|apply Hstep].
    destruct (flag_of upsert_option m); [|discriminate].
    destruct (dispose (name m) c w) as [[[u|e|e] c'] w']; try discriminate.
    apply Hstep.
Qed.

(** The loop registers nothing: all it does to the container is delete. *)
Lemma scan_only_deletes (files : list file) (acc : list ServiceOptions)
      (c c1 : Container) (w w1 : world) (r : promise (list ServiceOptions)) :
  scan files acc c w = (r, c1, w1) ->
  exists disposed, c1 = fold_left (fun c0 k => services_delete k c0) disposed c.
Proof.
  revert acc c w. induction files as [|f files IH]; intros acc c w; simpl.
  - intros [= _ <- _]. now exists [].
  - destruct (file_import f) as [e|d]; [intros [= _ <- _]; now exists []|].
    destruct (as_module d) as [m|]; [|intros [= _ <- _]; now exists []].
    destruct (services_has (name m) c); [|apply IH].
    destruct (flag_of upsert_option m); [|intros [= _ <- _]; now exists []].
    destruct (dispose (name m) c w) as [[[u|e|e] c'] w'] eqn:Hd.
    + apply dispose_resolved in Hd. subst c'. intros H. apply IH in H.
      destruct H as [ks ->]. now exists (name m :: ks).
    + intros [= _ <- _]. exists []. simpl.
      apply (dispose_not_resolved (name m) c c' w w' e). auto.
    + intros [= _ <- _]. exists []. simpl.
      apply (dispose_not_resolved (name m) c c' w w' e). auto.
Qed.

(** Files none of which names a registered service leave container and world
    as they were. *)
Lemma scan_untouched (files : list file) (acc ms : list ServiceOptions)
      (c c1 : Container) (w w1 : world) :
  (forall f m, In f files -> module_of f = Some m -> services_has (name m) c = false) ->
  scan files acc c w = (Resolved ms, c1, w1) ->
  c1 = c /\ w1 = w.
Proof.
  revert acc. induction files as [|f files IH]; intros acc Hfree; simpl.
  - intros [= _ <- <-]. auto.
  - pose proof (Hfree f) as Hf. unfold module_of in Hf.
    destruct (file_import f) as [e|d]; [discriminate|].
    destruct (as_module d) as [m|]; [|discriminate].
    rewrite (Hf m) by (simpl; auto).
    apply IH. intros f' m' Hin. apply Hfree. now right.
Qed.

Lemma filter_of_filter (A : Type) (f g : A -> bool) (l : list A) :
  filter f (filter g l) = filter (fun x => g x && f x) l.
Proof.
  induction l as [|x l IH]; simpl; auto.
  destruct (g x); simpl; [destruct (f x)|]; now rewrite IH.
Qed.

Lemma in_services_has (c : Container) (kv : string * NoNameServiceOptions) :
  In kv (services c) -> JsMap.has (fst kv) (services c) = true.
Proof.
  intros Hin. unfold JsMap.has.
  induction (services c) as [|[k0 e0] m IH]; simpl; [contradiction|].
  destruct Hin as [<- | Hin]; simpl.
  - now rewrite String.eqb_refl.
  - destruct (k0 =? fst kv); auto.
Qed.

(** What the loop has done to the container when it completes: it has
    removed the entries bearing the name of a module it went through, and
    nothing else; and a module that found its name taken had [upsert] on. *)
Lemma scan_replaces (files : list file) :
  forall (acc ms : list ServiceOptions) (c c1 : Container) (w w1 : world),
    scan files acc c w = (Resolved ms, c1, w1) ->
    exists new,
      ms = acc ++ new
      /\ self c1 = self c /\ props c1 = props c
      /\ services c1
         = filter (fun kv => negb (existsb (named (fst kv)) new)) (services c)
      /\ (forall kv, In kv (services c) -> existsb (named (fst kv)) new = true ->
                     exists m, In m new /\ named (fst kv) m = true
                               /\ flag_of upsert_option m = true).
Proof.
  induction files as [|f files IH]; intros acc ms c c1 w w1; simpl.
  - intros [= <- <- _]. exists []. rewrite app_nil_r. repeat split; auto.
    + symmetry. apply forallb_filter_id. now apply forallb_forall.
    + intros kv _ H. discriminate.
  - destruct (file_import f) as [e|d]; [discriminate|].
    destruct (as_module d) as [m|]; [|discriminate].
    destruct (services_has (name m) c) eqn:Hhas.
    + destruct (flag_of upsert_option m) eqn:Hupsert; [|discriminate].
      destruct (dispose (name m) c w) as [[[u|e|e] c'] w'] eqn:Hd; try discriminate.
      apply dispose_resolved in Hd. subst c'.
      unfold services_has, services_get in Hhas.
      destruct (name m) as [| | | |n| | | |] eqn:Hname; try discriminate.
      intros H. apply IH in H.
      destruct H as (new & -> & Hself & Hprops & Hservices & Hreplaced).
      exists (m :: new). rewrite <- app_assoc. simpl in *.
      split; [reflexivity|]. split; [exact Hself|]. split; [exact Hprops|]. split.
      * rewrite Hservices. unfold JsMap.delete. rewrite filter_of_filter.
        apply filter_ext. intros [k0 e0]. simpl. unfold named at 2. rewrite Hname.
        now rewrite negb_orb.
      * intros kv Hin Hex. unfold named at 1 in Hex. rewrite Hname in Hex.
        destruct (fst kv =? n) eqn:E.
        -- exists m. split; [now left|]. split; [|exact Hupsert].
           unfold named. now rewrite Hname.
        -- simpl in Hex.
           destruct (Hreplaced kv) as (m' & Hin' & Hnamed & Hup); auto.
           ++ unfold JsMap.delete. apply filter_In. split; [exact Hin|]. now rewrite E.
           ++ exists m'. split; [now right|]. auto.
    + intros H. apply IH in H.
      destruct H as (new & -> & Hself & Hprops & Hservices & Hreplaced).
      assert (Hfree : forall kv, In kv (services c) -> named (fst kv) m = false).
      { intros kv Hin. unfold named. destruct (name m) as [| | | |n| | | |] eqn:Hname; auto.
        destruct (fst kv =? n) eqn:E; auto.
        apply String.eqb_eq in E. subst n.
        apply in_services_has in Hin.
        unfold services_has, services_get in Hhas. unfold JsMap.has in Hin.
        destruct (JsMap.get (fst kv) (services c)); discriminate. }
      exists (m :: new). rewrite <- app_assoc. simpl.
      split; [reflexivity|]. split; [exact Hself|]. split; [exact Hprops|]. split.
      * rewrite Hservices. apply filter_ext_in. intros kv Hin.
        now rewrite (Hfree kv Hin).
      * intros kv Hin Hex. rewrite (Hfree kv Hin) in Hex. simpl in Hex.
        destruct (Hreplaced kv Hin Hex) as (m' & Hin' & Hnamed & Hup).
        exists m'. split; [now right|]. auto.
Qed.







(** The run of the directory above: the map's keys come out as b, c, a. *)
Example autoLoad_1_5_3_keys :
  JsMap.keys (services (snd (fst (autoLoad Sample.funs (Listing Sample.directory_1_5_3)
                                           Sample.container0 Sample.world0))))
  = ["b"; "c"; "a"].
Proof. reflexivity. Qed.

(** Two modules of one name, neither registered before: both pass the loop,
    and [register] stops at the second; what it added is the front part of
    the batch. *)
Example autoLoad_same_name_twice :
  let run := autoLoad Sample.funs
               (Listing [Sample.module_file "a1.js" (Sample.prioritized "A" 1);
                         Sample.module_file "b.js" (Sample.prioritized "B" 3);
                         Sample.module_file "a5.js" (Sample.prioritized "A" 5)])
               Sample.container0 Sample.world0 in
  fst (fst run) = Rejected (AlreadyRegistered "A")
  /\ JsMap.keys (services (snd (fst run))) = ["A"; "B"].
Proof. split; reflexivity. Qed.

(** C8, as amended.  When the loop over the loadable files reaches a module
    whose name is registered at that moment and whose [upsert] option is off,
    [autoLoad] rejects with the already-exists error, and nothing of the
    batch is registered.  The container is the one from before the call
    without the entries that bear the name of an earlier module of the
    directory, and every entry removed in this way was replaced by such a
    module with [upsert] on; nothing else has changed.  When no earlier
    module names a registered service, container and world are exactly as
    before the call. *)
Theorem autoLoad_duplicate_without_upsert
        (funs : fid -> callable) (entries before after : list file) (f : file)
        (m : ServiceOptions) (ms : list ServiceOptions)
        (c c1 : Container) (w w1 : world) :
  filter loadable entries = before ++ f :: after ->
  scan before [] c w = (Resolved ms, c1, w1) ->
  module_of f = Some m ->
  services_has (name m) c1 = true ->
  flag_of upsert_option m = false ->
  autoLoad funs (Listing entries) c w = (Rejected (AlreadyExists (name m)), c1, w1)
  /\ map Some ms = map module_of before
  /\ self c1 = self c
  /\ props c1 = props c
  /\ services c1
     = filter (fun kv => negb (existsb (named (fst kv)) ms)) (services c)
  /\ (forall kv, In kv (services c) -> existsb (named (fst kv)) ms = true ->
                 exists m', In m' ms /\ named (fst kv) m' = true
                            /\ flag_of upsert_option m' = true)
  /\ ((forall f' m', In f' before -> module_of f' = Some m' ->
                     services_has (name m') c = false) ->
      c1 = c /\ w1 = w).
Proof.
  intros Hfiles Hbefore Hm Hhas Hupsert.
  destruct (module_of_some f m Hm) as (d & Himport & Hmodule).
  destruct (scan_replaces before [] ms c c1 w w1 Hbefore)
    as (new & Hnew & Hself & Hprops & Hservices & Hreplaced).
  simpl in Hnew. subst new.
  split; [|split; [|split; [|split; [|split; [|split]]]]]; auto.
  - unfold autoLoad. rewrite Hfiles, scan_app, Hbefore. simpl.
    now rewrite Himport, Hmodule, Hhas, Hupsert.
  - apply scan_modules in Hbefore. exact Hbefore.
  - intros Hfree. eapply scan_untouched; eassumption.
Qed.

(** With "A" and "B" registered: a directory that replaces "A" and then
    offers "B" ends with "A" removed and "B" as it was; a directory that
    offers the new "C" and then "B" ends with everything as it was. *)
Lemma autoLoad_duplicate_without_upsert_witness :
  autoLoad Sample.funs (Listing Sample.directory_A_B) Sample.container_A_B Sample.world0
  = (Rejected (AlreadyExists (VStr "B")),
     services_delete (VStr "A") Sample.container_A_B, Sample.world0)
  /\ services (services_delete (VStr "A") Sample.container_A_B)
     = [("B", Sample.described "B" Sample.Clock (Sample.with_lazy Sample.no_options))]
  /\ (exists m',
         In m' [Sample.described "A" Sample.answer
                  (Sample.with_upsert (Sample.with_isFunction Sample.no_options))]
         /\ named "A" m' = true /\ flag_of upsert_option m' = true)
  /\ autoLoad Sample.funs (Listing Sample.directory_C_B) Sample.container_A_B Sample.world0
     = (Rejected (AlreadyExists (VStr "B")), Sample.container_A_B, Sample.world0).
Proof.
  destruct (autoLoad_duplicate_without_upsert Sample.funs Sample.directory_A_B
              [Sample.module_file "a.js"
                 (Sample.described "A" Sample.answer
                    (Sample.with_upsert (Sample.with_isFunction Sample.no_options)))]
              []
              (Sample.module_file "b.js"
                 (Sample.described "B" Sample.answer
                    (Sample.with_isFunction Sample.no_options)))
              (Sample.described "B" Sample.answer
                 (Sample.with_isFunction Sample.no_options))
              [Sample.described "A" Sample.answer
                 (Sample.with_upsert (Sample.with_isFunction Sample.no_options))]
              Sample.container_A_B
              (services_delete (VStr "A") Sample.container_A_B)
              Sample.world0 Sample.world0
              eq_refl eq_refl eq_refl eq_refl eq_refl)
    as (Hrun & _ & _ & _ & Hservices & Hreplaced & _).
  split; [exact Hrun|]. split; [exact Hservices|]. split.
  - apply (Hreplaced ("A", Sample.described "A" Sample.Clock
                             (Sample.with_lazy Sample.no_options))).
    + simpl. auto.
    + reflexivity.
  - apply (proj1 (autoLoad_duplicate_without_upsert Sample.funs Sample.directory_C_B
                    [Sample.module_file "c.js"
                       (Sample.described "C" Sample.answer
                          (Sample.with_isFunction Sample.no_options))]
                    []
                    (Sample.module_file "b.js"
                       (Sample.described "B" Sample.answer
                          (Sample.with_isFunction Sample.no_options)))
                    (Sample.described "B" Sample.answer
                       (Sample.with_isFunction Sample.no_options))
                    [Sample.described "C" Sample.answer
                       (Sample.with_isFunction Sample.no_options)]
                    Sample.container_A_B Sample.container_A_B
                    Sample.world0 Sample.world0
                    eq_refl eq_refl eq_refl eq_refl eq_refl)).
Defined.

(** C8, counterexample.  "A" and "B" are registered; the directory offers
    "A" with [upsert] and then "B" without.  [autoLoad] rejects because of
    "B", but by then "A" has been disposed: the map is not what it was. *)
Lemma autoLoad_duplicate_after_upsert_changes_registry :
  let run := autoLoad Sample.funs (Listing Sample.directory_A_B)
                      Sample.container_A_B Sample.world0 in
  (exists f m, In f Sample.directory_A_B /\ module_of f = Some m
               /\ services_has (name m) Sample.container_A_B = true
               /\ flag_of upsert_option m = false)
  /\ fst (fst run) = Rejected (AlreadyExists (VStr "B"))
  /\ services (snd (fst run)) <> services Sample.container_A_B
  /\ services_has (VStr "A") (snd (fst run)) = false.
Proof.
  cbv zeta. split; [|repeat split].
  - exists (Sample.module_file "b.js"
              (Sample.described "B" Sample.answer
                 (Sample.with_isFunction Sample.no_options))).
    eexists. repeat split; [simpl; auto | reflexivity..].
  - vm_compute. discriminate.
Qed.


(** * Further properties of the container *)

(** ** [register] and the entries already there *)

Section RegisterMore.
Variable funs : fid -> callable.

Lemma get_of_has_false (V : Type) (k : string) (m : JsMap.t V) :
  JsMap.has k m = false -> JsMap.get k m = None.
Proof. unfold JsMap.has. now destruct (JsMap.get k m). Qed.

Lemma register_keeps_existing l c w r c' w' :
  register funs l c w = (r, c', w') ->
  (forall k entry, JsMap.get k (services c) = Some entry ->
                   JsMap.get k (services c') = Some entry)
  /\ exists added, JsMap.keys (services c') = JsMap.keys (services c) ++ added.
Proof.
  revert c w. induction l as [|s l IH]; intros c w; simpl.
  - intros [= _ <- _]. split; auto. exists []. now rewrite app_nil_r.
  - assert (Hsame : (r, c', w') = (r, c', w') ->
                    (forall k entry, JsMap.get k (services c) = Some entry ->
                                     JsMap.get k (services c) = Some entry)
                    /\ exists added, JsMap.keys (services c) = JsMap.keys (services c) ++ added).
    { intros _. split; auto. exists []. now rewrite app_nil_r. }
    destruct (name s) eqn:Hname;
      try (intros [= _ <- _]; now apply Hsame).
    destruct (JsMap.has s0 (services c)) eqn:Hhas;
      [intros [= _ <- _]; now apply Hsame|].
    assert (Hgrow : forall entry,
               (forall k e0, JsMap.get k (services c) = Some e0 ->
                             JsMap.get k (JsMap.set s0 entry (services c)) = Some e0)
               /\ JsMap.keys (JsMap.set s0 entry (services c))
                  = JsMap.keys (services c) ++ [s0]).
    { intros entry. split.
      - intros k e0 Hk. rewrite get_set_other; auto.
        intros ->. rewrite (get_of_has_false _ _ _ Hhas) in Hk. discriminate.
      - rewrite set_absent by assumption. unfold JsMap.keys. now rewrite map_app. }
    destruct (register_one funs s0 s c w) as [[[e|u] c1] w1] eqn:Hone.
    + intros [= _ <- _]. apply register_one_any in Hone.
      destruct Hone as [-> | [entry ->]]; [now apply Hsame|].
      destruct (Hgrow entry) as [Hget Hkeys]. split; [exact Hget|].
      exists [s0]. exact Hkeys.
    + intros H. apply IH in H. destruct H as [Hget [added Hkeys]].
      apply register_one_entry in Hone. destruct Hone as [entry ->].
      destruct (Hgrow entry) as [Hget1 Hkeys1]. simpl in *. split.
      * intros k e0 Hk. apply Hget, Hget1, Hk.
      * exists (s0 :: added). rewrite Hkeys, Hkeys1, <- app_assoc. reflexivity.
Qed.
End RegisterMore.

(** X1.  A description whose name is already in the map, whether it was there
    before the call or came in with an earlier description of the same
    batch, makes [register] reject with the already-registered error once
    the descriptions before it have gone through; the container and the
    world stay as those left them, so the entry of that name is untouched. *)
Theorem register_rejects_registered_name
        (funs : fid -> callable) (before after : list ServiceOptions)
        (d : ServiceOptions) (n : string) (c c1 : Container) (w w1 : world) :
  name d = VStr n ->
  register funs before c w = (Resolved (self c), c1, w1) ->
  JsMap.has n (services c1) = true ->
  register funs (before ++ d :: after) c w = (Rejected (AlreadyRegistered n), c1, w1).
Proof.
  intros Hname Hbefore Hhas. rewrite register_app, Hbefore. simpl.
  now rewrite Hname, Hhas.
Qed.

Lemma register_rejects_registered_name_witness :
  register Sample.funs
    ([Sample.described "Clock" Sample.Clock Sample.no_options]
       ++ Sample.described "Clock" Sample.answer Sample.no_options :: [])
    Sample.container0 Sample.world0
  = (Rejected (AlreadyRegistered "Clock"),
     snd (fst (register Sample.funs
                 [Sample.described "Clock" Sample.Clock Sample.no_options]
                 Sample.container0 Sample.world0)),
     snd (register Sample.funs
            [Sample.described "Clock" Sample.Clock Sample.no_options]
            Sample.container0 Sample.world0)).
Proof.
  apply (register_rejects_registered_name Sample.funs
           [Sample.described "Clock" Sample.Clock Sample.no_options] []
           (Sample.described "Clock" Sample.answer Sample.no_options) "Clock"
           Sample.container0 _ Sample.world0 _);
    reflexivity.
Defined.

(** X2.  However a [register] call ends (resolved, rejected, or never
    settling part-way through a batch), every entry that was in the map
    before is still there unchanged, and the keys have only grown at the
    end: [register] neither removes nor overwrites, and what it added before
    failing stays. *)
Theorem register_never_touches_existing_entries
        (funs : fid -> callable) (l : list ServiceOptions)
        (c : Container) (w : world) :
  (forall k entry,
      JsMap.get k (services c) = Some entry ->
      JsMap.get k (services (snd (fst (register funs l c w)))) = Some entry)
  /\ exists added,
      JsMap.keys (services (snd (fst (register funs l c w))))
      = JsMap.keys (services c) ++ added.
Proof.
  destruct (register funs l c w) as [[r c'] w'] eqn:H.
  simpl. eapply register_keeps_existing. exact H.
Qed.

(** A batch that fails at its second description keeps the first. *)
Example register_is_not_transactional :
  let run := register Sample.funs
               [Sample.described "Clock" Sample.Clock Sample.no_options;
                {| name := VNum 5; service := Sample.Clock; options := None |}]
               Sample.container0 Sample.world0 in
  fst (fst run) = Rejected (NameNotString (VNum 5))
  /\ JsMap.keys (services (snd (fst run))) = ["Clock"].
Proof. split; reflexivity. Qed.

(** ** [resolve] and [dispose] *)

(** X3.  [resolve] never changes the container, whatever is stored under the
    name and however the call ends: it caches nothing, not even the
    instance it builds for a lazy service. *)
Theorem resolve_leaves_container
        (funs : fid -> callable) (k : value) (c : Container) (w : world) :
  snd (fst (resolve funs k c w)) = c.
Proof.
  unfold resolve. destruct (services_get k c) as [entry|]; [|reflexivity].
  destruct (typeof (service entry)); try reflexivity.
  pose proof (keeps_construct funs (service entry) [resolve_argument entry] c w) as H.
  destruct (construct funs (service entry) [resolve_argument entry] c w)
    as [[[e|v] c'] w']; exact H.
Qed.

Lemma get_delete_other (V : Type) (k k' : string) (m : JsMap.t V) :
  k' <> k -> JsMap.get k' (JsMap.delete k m) = JsMap.get k' m.
Proof.
  intros Hne. unfold JsMap.delete.
  induction m as [|[k0 v0] m IH]; simpl; auto.
  destruct (k0 =? k) eqn:E; simpl.
  - apply String.eqb_eq in E. subst k0.
    destruct (k =? k') eqn:E'; auto. apply String.eqb_eq in E'. congruence.
  - destruct (k0 =? k'); auto.
Qed.

Lemma dispose_container (k : value) (c c' : Container) (w w' : world) (r : promise unit) :
  dispose k c w = (r, c', w') -> c' = c \/ c' = services_delete k c.
Proof.
  destruct r as [u|e|e]; intros H.
  - right. eapply dispose_resolved. exact H.
  - left. eapply dispose_not_resolved. left. exact H.
  - left. eapply dispose_not_resolved. right. exact H.
Qed.

(** X4.  Once [dispose] of a name has resolved, the name is gone: [resolve]
    on it rejects with the not-registered error and a second [dispose]
    rejects with the does-not-exist error, both leaving container and world
    alone. *)
Theorem disposed_name_is_gone
        (funs : fid -> callable) (k : value) (c c' : Container) (w w' : world) (u : unit) :
  dispose k c w = (Resolved u, c', w') ->
  forall w2,
    resolve funs k c' w2 = (Rejected (NotRegistered k), c', w2)
    /\ dispose k c' w2 = (Rejected (DoesNotExist k), c', w2).
Proof.
  intros H w2.
  assert (Hstring : exists s, k = VStr s).
  { unfold dispose in H. destruct k; simpl in H; try discriminate. eauto. }
  destruct Hstring as [s ->].
  apply dispose_resolved in H. subst c'.
  pose proof (services_has_delete (VStr s) c) as Hgone.
  unfold services_has in Hgone. unfold resolve, dispose.
  destruct (services_get (VStr s) (services_delete (VStr s) c)); [discriminate|]. auto.
Qed.

Lemma disposed_name_is_gone_witness :
  resolve Sample.funs (VStr "A")
          (services_delete (VStr "A") Sample.container_A_B) Sample.world0
  = (Rejected (NotRegistered (VStr "A")),
     services_delete (VStr "A") Sample.container_A_B, Sample.world0)
  /\ dispose (VStr "A") (services_delete (VStr "A") Sample.container_A_B) Sample.world0
     = (Rejected (DoesNotExist (VStr "A")),
        services_delete (VStr "A") Sample.container_A_B, Sample.world0).
Proof.
  apply (disposed_name_is_gone Sample.funs (VStr "A") Sample.container_A_B
           (services_delete (VStr "A") Sample.container_A_B)
           Sample.world0 Sample.world0 tt eq_refl Sample.world0).
Defined.

(** X5.  [dispose] of one name, however it ends, leaves every other name
    with the entry it had. *)
Theorem dispose_leaves_other_names
        (k k' : value) (c : Container) (w : world) :
  k' <> k ->
  services_get k' (snd (fst (dispose k c w))) = services_get k' c.
Proof.
  intros Hne. destruct (dispose k c w) as [[r c'] w'] eqn:H. simpl.
  apply dispose_container in H. destruct H as [-> | ->]; [reflexivity|].
  unfold services_delete, services_get.
  destruct k; try reflexivity. destruct k'; try reflexivity. simpl.
  apply get_delete_other. congruence.
Qed.

Lemma dispose_leaves_other_names_witness :
  services_get (VStr "B")
    (snd (fst (dispose (VStr "A") Sample.container_A_B Sample.world0)))
  = services_get (VStr "B") Sample.container_A_B.
Proof.
  apply (dispose_leaves_other_names (VStr "A") (VStr "B")
           Sample.container_A_B Sample.world0).
  discriminate.
Defined.

(** ** [disposeAll] *)

Lemma dispose_services (k : string) (c : Container) (w : world) :
  services (snd (fst (dispose (VStr k) c w))) = dispose_step (services c) k.
Proof.
  unfold dispose, dispose_step, throws_at, disposer_throws. simpl.
  destruct (JsMap.get k (services c)) as [entry|] eqn:Hget; simpl.
  - destruct (option_of disposer entry) as [h|]; [|reflexivity].
    unfold bind, call_hook, bind, log_event, ret, throw.
    destruct (hook_run h); reflexivity.
  - symmetry. apply delete_absent. unfold JsMap.has. now rewrite Hget.
Qed.

Lemma disposeAll_fold (ks : list string) (c : Container) (w : world) :
  services
    (fst (fold_left
            (fun cw k => let '(_, c1, w1) := dispose (VStr k) (fst cw) (snd cw) in (c1, w1))
            ks (c, w)))
  = fold_left dispose_step ks (services c).
Proof.
  revert c w. induction ks as [|k ks IH]; intros c w; simpl; auto.
  pose proof (dispose_services k c w) as Hstep.
  destruct (dispose (VStr k) c w) as [[r c1] w1]. simpl in Hstep.
  rewrite IH. now rewrite Hstep.
Qed.

Lemma throws_at_delete_other (k k' : string) (m : JsMap.t NoNameServiceOptions) :
  k' <> k -> throws_at k' (JsMap.delete k m) = throws_at k' m.
Proof. intros Hne. unfold throws_at. now rewrite get_delete_other. Qed.

(** After the loop went through the keys [ks], the map holds the entries
    whose key was not among them or whose disposer throws. *)
Lemma dispose_steps (ks : list string) (m : JsMap.t NoNameServiceOptions) :
  fold_left dispose_step ks m =
  filter (fun kv => negb (existsb (String.eqb (fst kv)) ks) || throws_at (fst kv) m) m.
Proof.
  revert m. induction ks as [|k ks IH]; intros m; simpl.
  - symmetry. apply forallb_filter_id. now apply forallb_forall.
  - rewrite IH. unfold dispose_step.
    destruct (throws_at k m) eqn:Hthrows.
    + apply filter_ext. intros [k0 e0]. simpl.
      destruct (k0 =? k) eqn:E; simpl; auto.
      apply String.eqb_eq in E. subst k0. rewrite Hthrows.
      now rewrite orb_true_r.
    + unfold JsMap.delete at 2. rewrite filter_of_filter.
      apply filter_ext. intros [k0 e0]. simpl.
      destruct (k0 =? k) eqn:E; simpl.
      * apply String.eqb_eq in E. subst k0. now rewrite Hthrows.
      * rewrite throws_at_delete_other; auto.
        intros ->. rewrite String.eqb_refl in E. discriminate.
Qed.

(** X6.  [disposeAll] always resolves.  Afterwards the map holds exactly the
    entries whose disposer throws, in their old order: every other entry is
    removed, and a failing [dispose] does not stop the loop.  When no
    disposer throws the map is empty. *)
Theorem disposeAll_keeps_only_failing_entries (c : Container) (w : world) :
  fst (fst (disposeAll c w)) = Resolved tt
  /\ services (snd (fst (disposeAll c w)))
     = filter (fun kv => throws_at (fst kv) (services c)) (services c)
  /\ ((forall k entry, JsMap.get k (services c) = Some entry ->
                       disposer_throws entry = false) ->
      services (snd (fst (disposeAll c w))) = []).
Proof.
  assert (Hservices :
            services (snd (fst (disposeAll c w)))
            = filter (fun kv => throws_at (fst kv) (services c)) (services c)).
  { unfold disposeAll.
    pose proof (disposeAll_fold (JsMap.keys (services c)) c w) as Hfold.
    destruct (fold_left _ (JsMap.keys (services c)) (c, w)) as [c' w'].
    simpl in *. rewrite Hfold, dispose_steps.
    apply filter_ext_in. intros [k0 e0] Hin. simpl.
    assert (Hex : existsb (String.eqb k0) (JsMap.keys (services c)) = true).
    { apply existsb_exists. exists k0. split; [|apply String.eqb_refl].
      unfold JsMap.keys. change k0 with (fst (k0, e0)). now apply in_map. }
    now rewrite Hex. }
  split; [|split].
  - unfold disposeAll. now destruct (fold_left _ _ _).
  - exact Hservices.
  - intros Hquiet. rewrite Hservices.
    induction (services c) as [|[k0 e0] m IH] in Hquiet |- *; auto.
    assert (Hnone : forall l : JsMap.t NoNameServiceOptions,
               filter (fun kv => throws_at (fst kv) ((k0, e0) :: m)) l = []).
    { intros l. induction l as [|[k1 e1] l IHl]; simpl; auto.
      unfold throws_at at 1.
      destruct (JsMap.get k1 ((k0, e0) :: m)) as [entry|] eqn:Hget; auto.
      now rewrite (Hquiet k1 entry Hget). }
    apply Hnone.
Qed.

(** With "A" quiet and "T" throwing, [disposeAll] leaves "T". *)
Example disposeAll_leaves_throwing_entry :
  let c := with_services
             [("A", Sample.described "A" Sample.Clock (Sample.with_lazy Sample.no_options));
              ("T", Sample.described "T" Sample.Clock
                      (Sample.with_lazy
                         (Sample.with_disposer (Sample.throwing_hook 7) Sample.no_options)));
              ("B", Sample.described "B" Sample.Clock
                      (Sample.with_lazy
                         (Sample.with_disposer (Sample.quiet_hook 8) Sample.no_options)))]
             Sample.container0 in
  JsMap.keys (services (snd (fst (disposeAll c Sample.world0)))) = ["T"].
Proof. reflexivity. Qed.

Lemma disposeAll_keeps_only_failing_entries_witness :
  services (snd (fst (disposeAll Sample.container_A_B Sample.world0))) = [].
Proof.
  apply (proj2 (proj2 (disposeAll_keeps_only_failing_entries
                         Sample.container_A_B Sample.world0))).
  intros k entry. unfold Sample.container_A_B, with_services.
  cbn [services JsMap.get].
  destruct ("A" =? k); [intros [= <-]; reflexivity|].
  destruct ("B" =? k); [intros [= <-]; reflexivity|discriminate].
Defined.

(** ** What a method adds to the trace *)

Lemma added_events_refl (P : event -> bool) (w : world) : added_events P w w.
Proof. exists []. split; [now rewrite app_nil_r | constructor]. Qed.

Lemma added_events_trans (P : event -> bool) (w1 w2 w3 : world) :
  added_events P w1 w2 -> added_events P w2 w3 -> added_events P w1 w3.
Proof.
  intros (a1 & E1 & F1) (a2 & E2 & F2). exists (a1 ++ a2). split.
  - now rewrite E2, E1, app_assoc.
  - apply Forall_app. auto.
Qed.

Lemma added_events_weaken (P Q : event -> bool) (w w' : world) :
  (forall e, P e = true -> Q e = true) -> added_events P w w' -> added_events Q w w'.
Proof.
  intros HPQ (a & E & F). exists a. split; [exact E|].
  eapply Forall_impl; [|exact F]. exact HPQ.
Qed.

Lemma emits_at_ret {A} (P : event -> bool) (a : A) c w : emits_at P (ret a) c w.
Proof. apply (added_events_refl P w). Qed.

Lemma emits_at_throw {A} (P : event -> bool) (e : error) c w : emits_at P (@throw A e) c w.
Proof. apply (added_events_refl P w). Qed.

Lemma emits_at_log_event (P : event -> bool) (e : event) c w :
  P e = true -> emits_at P (log_event e) c w.
Proof. intros He. exists [e]. split; [reflexivity|]. now constructor. Qed.

Lemma emits_at_alloc (P : event -> bool) c w : emits_at P (lift_world alloc) c w.
Proof. exists []. split; [simpl; now rewrite app_nil_r | constructor]. Qed.

Lemma emits_at_services_set (P : event -> bool) k entry c w :
  emits_at P (services_set k entry) c w.
Proof. apply (added_events_refl P w). Qed.

Lemma emits_at_bind {A B} (P : event -> bool) (m : M A) (k : A -> M B) c w :
  emits_at P m c w ->
  (forall a c1 w1, m c w = (inr a, c1, w1) -> emits_at P (k a) c1 w1) ->
  emits_at P (bind m k) c w.
Proof.
  unfold emits_at, bind. intros Hm Hk.
  destruct (m c w) as [[[e|a] c1] w1] eqn:Hrun; simpl in *; [exact Hm|].
  eapply (added_events_trans P w w1); [exact Hm|]. now apply Hk.
Qed.

Lemma emits_at_try_catch {A} (P : event -> bool) (m : M A) (handler : error -> M A) c w :
  emits_at P m c w ->
  (forall e c1 w1, m c w = (inl e, c1, w1) -> emits_at P (handler e) c1 w1) ->
  emits_at P (try_catch m handler) c w.
Proof.
  unfold emits_at, try_catch. intros Hm Hh.
  destruct (m c w) as [[[e|a] c1] w1] eqn:Hrun; simpl in *; [|exact Hm].
  eapply (added_events_trans P w w1); [exact Hm|]. now apply Hh.
Qed.

Lemma emits_at_weaken {A} (P Q : event -> bool) (m : M A) c w :
  (forall e, P e = true -> Q e = true) -> emits_at P m c w -> emits_at Q m c w.
Proof. intros HPQ. apply added_events_weaken. exact HPQ. Qed.

Lemma emits_at_call_hook (P : event -> bool) (ev : event) (h : hook) c w :
  P ev = true -> emits_at P (call_hook ev h) c w.
Proof.
  intros Hev. unfold call_hook. apply emits_at_bind.
  - now apply emits_at_log_event.
  - intros _ c1 w1 _. destruct (hook_run h); auto using emits_at_ret, emits_at_throw.
Qed.

Lemma emits_at_await_hook (P : event -> bool) (r : hook_result) c w :
  emits_at P (await_hook r) c w.
Proof. destruct r; simpl; auto using emits_at_ret, emits_at_throw. Qed.

Lemma emits_result {A} (P : event -> bool) (m : M A) c w r c' w' :
  emits P m -> m c w = (r, c', w') -> added_events P w w'.
Proof. intros Hm Hrun. specialize (Hm c w). unfold emits_at in Hm. now rewrite Hrun in Hm. Qed.

Section TraceFacts.
Variable funs : fid -> callable.

Lemma emits_construct f args : emits is_instantiation (construct funs f args).
Proof.
  intros c w. unfold construct.
  destruct f; try apply emits_at_throw.
  destruct (funs f); try apply emits_at_throw.
  - apply emits_at_bind; [apply emits_at_alloc|]. intros a c1 w1 _.
    apply emits_at_bind; [now apply emits_at_log_event|]. intros _ c2 w2 _.
    destruct (ctor args); auto using emits_at_ret, emits_at_throw.
  - apply emits_at_bind; [apply emits_at_alloc|]. intros a c1 w1 _.
    apply emits_at_bind; [now apply emits_at_log_event|]. intros _ c2 w2 _.
    destruct (body args); auto using emits_at_ret, emits_at_throw.
Qed.

Lemma emits_call f args : emits is_instantiation (call funs f args).
Proof.
  intros c w. unfold call.
  destruct f; try apply emits_at_throw.
  destruct (funs f); try apply emits_at_throw;
    (apply emits_at_bind; [now apply emits_at_log_event|]; intros _ c2 w2 _;
     destruct (body args); auto using emits_at_ret, emits_at_throw).
Qed.

Lemma emits_createServiceInstance s :
  emits is_instantiation (createServiceInstance funs s).
Proof.
  intros c w. unfold createServiceInstance. apply emits_at_try_catch.
  - destruct (flag_of isFunction s); [apply emits_call|].
    destruct (flag_of isInstance s); [apply emits_at_ret | apply emits_construct].
  - intros e c1 w1 _. apply emits_at_throw.
Qed.

Lemma emits_announce n s : emits is_logging (announce n s).
Proof.
  intros c w. unfold announce. apply emits_at_bind; [apply emits_at_ret|].
  intros c0 c1 w1 _.
  destruct (_ && _); [|apply emits_at_ret].
  destruct (option_of logging s) as [[| |h]|]; try (now apply emits_at_log_event).
  apply emits_at_bind; [now apply emits_at_call_hook|].
  intros _ c2 w2 _. apply emits_at_ret.
Qed.

Lemma emits_initialize s : emits is_initializer (initialize s).
Proof.
  intros c w. unfold initialize. apply emits_at_bind; [apply emits_at_ret|].
  intros c0 c1 w1 _.
  destruct (option_of initializer s) as [h|]; [|apply emits_at_ret].
  apply emits_at_bind; [now apply emits_at_call_hook|].
  intros r c2 w2 _. apply emits_at_await_hook.
Qed.
End TraceFacts.

Lemma bind_inr {A B} (m : M A) (k : A -> M B) c w b c' w' :
  bind m k c w = (inr b, c', w') ->
  exists a c1 w1, m c w = (inr a, c1, w1) /\ k a c1 w1 = (inr b, c', w').
Proof.
  unfold bind. destruct (m c w) as [[[e|a] c1] w1]; [discriminate|]. eauto 6.
Qed.

Section BatchTraces.
Variable funs : fid -> callable.

(** The first step of the loop body: the entry to store. *)
Lemma keeps_entry_to_store s :
  keeps (if flag_of lazyLoad s then ret s
         else v <- createServiceInstance funs s ;; ret (realized v)).
Proof.
  destruct (flag_of lazyLoad s); auto with keeps.
  apply keeps_bind; [apply keeps_createServiceInstance|]. auto with keeps.
Qed.

Lemma emits_entry_to_store s :
  emits is_instantiation
        (if flag_of lazyLoad s then ret s
         else v <- createServiceInstance funs s ;; ret (realized v)).
Proof.
  intros c w. destruct (flag_of lazyLoad s); [apply emits_at_ret|].
  apply emits_at_bind; [apply emits_createServiceInstance|].
  intros v c1 w1 _. apply emits_at_ret.
Qed.

Lemma register_one_lazy_emits n s c w :
  flag_of lazyLoad s = true ->
  emits_at (fun e => negb (is_instantiation e)) (register_one funs n s) c w.
Proof.
  intros Hlazy. unfold register_one. rewrite Hlazy.
  apply emits_at_bind; [apply emits_at_ret|]. intros entry c1 w1 _.
  apply emits_at_bind; [apply emits_at_services_set|]. intros _ c2 w2 _.
  apply emits_at_bind.
  - eapply emits_at_weaken; [|apply emits_announce]. now intros [].
  - intros _ c3 w3 _.
    eapply emits_at_weaken; [|apply emits_initialize]. now intros [].
Qed.

(** With a logger on the container, or ["none"] on the service, the logging
    step does nothing. *)
Lemma announce_silent n s c w :
  truthy (logger c) = true \/ option_of logging s = Some LoggingNone ->
  announce n s c w = (inr tt, c, w).
Proof.
  intros [Hlogger | Hnone]; unfold announce, bind, this; simpl.
  - rewrite Hlogger. simpl. now rewrite andb_false_r.
  - now rewrite Hnone.
Qed.

Lemma register_one_silent_emits n s c w :
  truthy (logger c) = true \/ option_of logging s = Some LoggingNone ->
  emits_at (fun e => negb (is_logging e)) (register_one funs n s) c w.
Proof.
  intros Hsilent. unfold register_one.
  apply emits_at_bind.
  - eapply emits_at_weaken; [|apply emits_entry_to_store]. now intros [].
  - intros entry c1 w1 Hentry.
    assert (c1 = c) by (eapply keeps_result; [apply keeps_entry_to_store | exact Hentry]).
    subst c1.
    apply emits_at_bind; [apply emits_at_services_set|]. intros u c2 w2 Hset.
    unfold services_set in Hset. injection Hset as _ Hc Hw. subst c2 w2.
    apply emits_at_bind.
    + unfold emits_at. rewrite announce_silent by exact Hsilent.
      apply added_events_refl.
    + intros _ c3 w3 _.
      eapply emits_at_weaken; [|apply emits_initialize]. now intros [].
Qed.

(** A batch inherits what each of its iterations adds to the trace, as long
    as the condition on the container survives the storing of an entry. *)
Lemma register_emits (P : event -> bool) (ok : Container -> ServiceOptions -> Prop) :
  (forall c s m, ok c s -> ok (with_services m c) s) ->
  (forall n s c w, ok c s -> emits_at P (register_one funs n s) c w) ->
  forall l c w,
    Forall (ok c) l ->
    added_events P w (snd (register funs l c w)).
Proof.
  intros Hstable Hone l. induction l as [|s l IH]; intros c w Hok; simpl.
  - apply added_events_refl.
  - inversion Hok as [|s' l' Hs Hl]; subst.
    destruct (name s); try apply added_events_refl.
    destruct (JsMap.has s0 (services c)); [apply added_events_refl|].
    pose proof (Hone s0 s c w Hs) as Hstep. unfold emits_at in Hstep.
    destruct (register_one funs s0 s c w) as [[[e|u] c1] w1] eqn:Hrun; simpl in Hstep.
    + exact Hstep.
    + eapply added_events_trans; [exact Hstep|].
      apply IH. apply register_one_entry in Hrun. destruct Hrun as [entry ->].
      eapply Forall_impl; [|exact Hl]. intros s1. apply Hstable.
Qed.
End BatchTraces.

(** X7.  A batch of lazy services is registered without instantiating
    anything: however the call ends, it has added no constructor call and no
    function call to the trace. *)
Theorem lazy_registration_instantiates_nothing
        (funs : fid -> callable) (l : list ServiceOptions) (c : Container) (w : world) :
  Forall (fun s => flag_of lazyLoad s = true) l ->
  added_events (fun e => negb (is_instantiation e)) w (snd (register funs l c w)).
Proof.
  intros Hlazy.
  apply (register_emits funs (fun e => negb (is_instantiation e))
           (fun _ s => flag_of lazyLoad s = true)); auto.
  intros n s c0 w0 Hs. now apply register_one_lazy_emits.
Qed.

Lemma lazy_registration_instantiates_nothing_witness :
  added_events (fun e => negb (is_instantiation e)) Sample.world0
    (snd (register Sample.funs
            [Sample.described "Ticker" Sample.Clock (Sample.with_lazy Sample.no_options)]
            Sample.container0 Sample.world0)).
Proof.
  apply (lazy_registration_instantiates_nothing Sample.funs
           [Sample.described "Ticker" Sample.Clock (Sample.with_lazy Sample.no_options)]
           Sample.container0 Sample.world0).
  repeat constructor.
Defined.

(** X8.  When the container has a truthy [logger] property, or every service
    of the batch asks for logging ["none"], [register] logs nothing: however
    the call ends, it has added neither a [console.log] line nor a call of a
    logging function to the trace. *)
Theorem silenced_registration_logs_nothing
        (funs : fid -> callable) (l : list ServiceOptions) (c : Container) (w : world) :
  truthy (logger c) = true
  \/ Forall (fun s => option_of logging s = Some LoggingNone) l ->
  added_events (fun e => negb (is_logging e)) w (snd (register funs l c w)).
Proof.
  intros Hsilent.
  apply (register_emits funs (fun e => negb (is_logging e))
           (fun c0 s => truthy (logger c0) = true
                        \/ option_of logging s = Some LoggingNone)).
  - intros c0 s m H. exact H.
  - intros n s c0 w0 Hs. now apply register_one_silent_emits.
  - destruct Hsilent as [Hlogger | Hnone].
    + apply Forall_forall. intros s _. now left.
    + eapply Forall_impl; [|exact Hnone]. intros s Hs. now right.
Qed.

Lemma silenced_registration_logs_nothing_witness :
  added_events (fun e => negb (is_logging e)) Sample.world0
    (snd (register Sample.funs
            [Sample.described "Clock" Sample.Clock Sample.no_options]
            {| self := 0; services := []; props := [("logger", VObj 9)] |}
            Sample.world0)).
Proof.
  apply (silenced_registration_logs_nothing Sample.funs
           [Sample.described "Clock" Sample.Clock Sample.no_options]
           {| self := 0; services := []; props := [("logger", VObj 9)] |}
           Sample.world0).
  left. reflexivity.
Defined.

(** ** Initializers *)

Lemma filter_none (A : Type) (P Q : A -> bool) (l : list A) :
  (forall x, P x = true -> Q x = false) ->
  Forall (fun x => P x = true) l -> filter Q l = [].
Proof.
  intros HPQ. induction 1 as [|x l Hx Hl IH]; simpl; auto.
  now rewrite (HPQ x Hx).
Qed.

Lemma initialize_resolved s c w u c' w' :
  initialize s c w = (inr u, c', w') ->
  events w' = events w ++ initializer_events (self c) [s].
Proof.
  unfold initialize, initializer_events, bind, this, call_hook, bind, log_event,
    await_hook, ret, throw. simpl.
  destruct (option_of initializer s) as [h|]; simpl.
  - destruct (hook_run h); intros H; inversion H; reflexivity.
  - intros H. inversion H. now rewrite app_nil_r.
Qed.

Lemma filter_initializer_events (i : nat) (l : list ServiceOptions) :
  filter is_initializer (initializer_events i l) = initializer_events i l.
Proof.
  unfold initializer_events. induction l as [|s l IH]; simpl; auto.
  rewrite filter_app, IH.
  destruct (option_of initializer s); reflexivity.
Qed.

Section InitializerFacts.
Variable funs : fid -> callable.

Lemma register_one_initializer n s c w u c' w' :
  register_one funs n s c w = (inr u, c', w') ->
  exists added,
    events w' = events w ++ added
    /\ filter is_initializer added = initializer_events (self c) [s].
Proof.
  unfold register_one. intros H.
  apply bind_inr in H. destruct H as (entry & c1 & w1 & Hentry & H).
  apply bind_inr in H. destruct H as (u2 & c2 & w2 & Hset & H).
  apply bind_inr in H. destruct H as (u3 & c3 & w3 & Hannounce & H).
  cbv beta in Hentry, Hset, Hannounce, H.
  assert (c1 = c) by (eapply keeps_result; [apply keeps_entry_to_store | exact Hentry]).
  subst c1.
  unfold services_set in Hset. injection Hset as _ Hc Hw. subst c2 w2.
  assert (c3 = with_services (JsMap.set n entry (services c)) c)
    by (eapply keeps_result; [apply keeps_announce | exact Hannounce]).
  subst c3.
  destruct (emits_result _ _ _ _ _ _ _ (emits_entry_to_store funs s) Hentry)
    as (a1 & E1 & F1).
  destruct (emits_result _ _ _ _ _ _ _ (emits_announce n s) Hannounce)
    as (a2 & E2 & F2).
  apply initialize_resolved in H. cbn [self with_services] in H.
  exists (a1 ++ a2 ++ initializer_events (self c) [s]). split.
  - rewrite H, E2, E1. now rewrite <- !app_assoc.
  - rewrite !filter_app.
    rewrite (filter_none event is_instantiation is_initializer a1 (ltac:(now intros [])) F1).
    rewrite (filter_none event is_logging is_initializer a2 (ltac:(now intros [])) F2).
    cbn [app]. apply filter_initializer_events.
Qed.

Lemma register_initializers l c w x c' w' :
  register funs l c w = (Resolved x, c', w') ->
  exists added,
    events w' = events w ++ added
    /\ filter is_initializer added = initializer_events (self c) l.
Proof.
  revert c w. induction l as [|s l IH]; intros c w; simpl.
  - intros [= _ _ <-]. exists []. split; [now rewrite app_nil_r | reflexivity].
  - destruct (name s); name_refused.
    destruct (JsMap.has s0 (services c)); [discriminate|].
    destruct (register_one funs s0 s c w) as [[[e|u] c1] w1] eqn:Hone; [discriminate|].
    intros H. apply IH in H. destruct H as (a2 & E2 & F2).
    destruct (register_one_initializer _ _ _ _ _ _ _ Hone) as (a1 & E1 & F1).
    apply register_one_entry in Hone. destruct Hone as [entry ->]. simpl in F2.
    exists (a1 ++ a2). split.
    + now rewrite E2, E1, app_assoc.
    + rewrite filter_app, F1, F2. unfold initializer_events. simpl.
      now rewrite app_nil_r.
Qed.
End InitializerFacts.

(** X9.  When [register] resolves, the initializers it called are exactly
    those of the batch's services, one call each, in the order of the batch,
    each with the container as argument. *)
Theorem register_runs_initializers_in_order
        (funs : fid -> callable) (l : list ServiceOptions)
        (c c' : Container) (w w' : world) :
  register funs l c w = (Resolved (self c), c', w') ->
  exists added,
    events w' = events w ++ added
    /\ filter is_initializer added = initializer_events (self c) l.
Proof. apply register_initializers. Qed.

Lemma register_runs_initializers_in_order_witness :
  exists added,
    events (snd (register Sample.funs
                   [Sample.described "Clock" Sample.Clock
                      (Sample.with_initializer (Sample.quiet_hook 1) Sample.no_options);
                    Sample.described "Ticker" Sample.Clock
                      (Sample.with_lazy
                         (Sample.with_initializer (Sample.quiet_hook 2) Sample.no_options))]
                   Sample.container0 Sample.world0))
    = events Sample.world0 ++ added
    /\ filter is_initializer added
       = initializer_events (self Sample.container0)
           [Sample.described "Clock" Sample.Clock
              (Sample.with_initializer (Sample.quiet_hook 1) Sample.no_options);
            Sample.described "Ticker" Sample.Clock
              (Sample.with_lazy
                 (Sample.with_initializer (Sample.quiet_hook 2) Sample.no_options))].
Proof.
  apply (register_runs_initializers_in_order Sample.funs
           [Sample.described "Clock" Sample.Clock
              (Sample.with_initializer (Sample.quiet_hook 1) Sample.no_options);
            Sample.described "Ticker" Sample.Clock
              (Sample.with_lazy
                 (Sample.with_initializer (Sample.quiet_hook 2) Sample.no_options))]
           Sample.container0
           (snd (fst (register Sample.funs
                   [Sample.described "Clock" Sample.Clock
                      (Sample.with_initializer (Sample.quiet_hook 1) Sample.no_options);
                    Sample.described "Ticker" Sample.Clock
                      (Sample.with_lazy
                         (Sample.with_initializer (Sample.quiet_hook 2) Sample.no_options))]
                   Sample.container0 Sample.world0)))
           Sample.world0 _).
  reflexivity.
Defined.

(** ** Failures inside the loop of [register] *)




(** The logging step completes unless a logging function throws. *)
Lemma announce_completes n s c w :
  (forall h e, option_of logging s = Some (LoggingFn h) -> hook_run h <> Throws e) ->
  exists w', announce n s c w = (inr tt, c, w').
Proof.
  intros Hquiet. unfold announce, bind, this. simpl.
  destruct (_ && _); [|eexists; reflexivity].
  destruct (option_of logging s) as [[| |h]|] eqn:Hlog;
    try (eexists; reflexivity).
  unfold call_hook, bind, log_event, ret, throw.
  destruct (hook_run h) eqn:Hrun; try (eexists; reflexivity).
  exfalso. eapply Hquiet; eauto.
Qed.

(** X11.  When the initializer of a lazy service throws, or returns a promise
    that rejects, the promise of [register] never settles; by then the
    service has been stored under its name, and it stays; the rest of the
    batch is not looked at. *)
Theorem failed_initializer_never_settles
        (funs : fid -> callable) (d : ServiceOptions) (n : string)
        (rest : list ServiceOptions) (h : hook) (e : value)
        (c : Container) (w : world) :
  name d = VStr n ->
  JsMap.has n (services c) = false ->
  flag_of lazyLoad d = true ->
  (forall lh le, option_of logging d = Some (LoggingFn lh) -> hook_run lh <> Throws le) ->
  option_of initializer d = Some h ->
  hook_run h = Throws e \/ hook_run h = Rejects e ->
  exists w',
    register funs (d :: rest) c w
    = (NeverSettles (Thrown e), with_services (JsMap.set n d (services c)) c, w')
    /\ services_get (VStr n) (with_services (JsMap.set n d (services c)) c) = Some d.
Proof.
  intros Hname Hhas Hlazy Hquiet Hinit Hfails.
  destruct (announce_completes n d (with_services (JsMap.set n d (services c)) c) w Hquiet)
    as [w1 Hannounce].
  eexists. split; [|simpl; apply get_set_same].
  simpl. rewrite Hname, Hhas.
  unfold register_one. rewrite Hlazy.
  unfold bind at 1 2. simpl. unfold bind at 1.
  change (JsMap.set n d (services c)) with (JsMap.set n d (services c)).
  rewrite Hannounce.
  unfold initialize, bind, this, call_hook, bind, log_event, await_hook, ret, throw.
  simpl. rewrite Hinit.
  destruct Hfails as [-> | ->]; reflexivity.
Qed.

Lemma failed_initializer_never_settles_witness :
  exists w',
    register Sample.funs
      (Sample.described "Ticker" Sample.Clock
         (Sample.with_lazy
            (Sample.with_initializer (Sample.rejecting_hook 4) Sample.no_options))
         :: [Sample.described "Clock" Sample.Clock Sample.no_options])
      Sample.container0 Sample.world0
    = (NeverSettles (Thrown (VStr "initializer failed")),
       with_services
         (JsMap.set "Ticker"
            (Sample.described "Ticker" Sample.Clock
               (Sample.with_lazy
                  (Sample.with_initializer (Sample.rejecting_hook 4) Sample.no_options)))
            (services Sample.container0))
         Sample.container0, w')
    /\ services_get (VStr "Ticker")
         (with_services
            (JsMap.set "Ticker"
               (Sample.described "Ticker" Sample.Clock
                  (Sample.with_lazy
                     (Sample.with_initializer (Sample.rejecting_hook 4) Sample.no_options)))
               (services Sample.container0))
            Sample.container0)
       = Some (Sample.described "Ticker" Sample.Clock
                 (Sample.with_lazy
                    (Sample.with_initializer (Sample.rejecting_hook 4) Sample.no_options))).
Proof.
  apply (failed_initializer_never_settles Sample.funs
           (Sample.described "Ticker" Sample.Clock
              (Sample.with_lazy
                 (Sample.with_initializer (Sample.rejecting_hook 4) Sample.no_options)))
           "Ticker"
           [Sample.described "Clock" Sample.Clock Sample.no_options]
           (Sample.rejecting_hook 4) (VStr "initializer failed")
           Sample.container0 Sample.world0);
    try reflexivity.
  - intros lh le. discriminate.
  - right. reflexivity.
Defined.

(** ** Eager services, kind by kind *)

Lemma filter_negated (A : Type) (P : A -> bool) (l : list A) :
  Forall (fun x => negb (P x) = true) l -> filter P l = [].
Proof.
  induction 1 as [|x l Hx Hl IH]; simpl; auto.
  destruct (P x); [discriminate | exact IH].
Qed.

Section EagerKinds.
Variable funs : fid -> callable.

(** An eager registration that went through: the value instantiated, the
    entry stored, and nothing instantiated after that. *)
Lemma register_one_eager n s c w u c' w' :
  flag_of lazyLoad s = false ->
  register_one funs n s c w = (inr u, c', w') ->
  exists v w0,
    createServiceInstance funs s c w = (inr v, c, w0)
    /\ c' = with_services (JsMap.set n (realized v) (services c)) c
    /\ added_events (fun e => negb (is_instantiation e)) w0 w'.
Proof.
  intros Heager H. unfold register_one in H. rewrite Heager in H.
  apply bind_inr in H. destruct H as (entry & c1 & w1 & Hentry & H).
  apply bind_inr in Hentry. destruct Hentry as (v & c0 & w0 & Hcreate & Hret).
  apply bind_inr in H. destruct H as (u2 & c2 & w2 & Hset & H).
  apply bind_inr in H. destruct H as (u3 & c3 & w3 & Hannounce & H).
  cbv beta in Hret, Hset, Hannounce, H.
  assert (c0 = c)
    by (eapply keeps_result; [apply keeps_createServiceInstance | exact Hcreate]).
  subst c0. unfold ret in Hret. injection Hret as <- <- <-.
  unfold services_set in Hset. injection Hset as _ Hc Hw. subst c2 w2.
  assert (c3 = with_services (JsMap.set n (realized v) (services c)) c)
    by (eapply keeps_result; [apply keeps_announce | exact Hannounce]).
  subst c3.
  assert (c' = with_services (JsMap.set n (realized v) (services c)) c)
    by (eapply keeps_result; [apply keeps_initialize | exact H]).
  subst c'.
  exists v, w0. repeat split; auto.
  eapply added_events_trans.
  - eapply added_events_weaken;
      [|exact (emits_result _ _ _ _ _ _ _ (emits_announce n s) Hannounce)].
    now intros [].
  - eapply added_events_weaken;
      [|exact (emits_result _ _ _ _ _ _ _ (emits_initialize s) H)].
    now intros [].
Qed.
End EagerKinds.

(** X12.  An eager instance-kind service ([isInstance] set, [isFunction]
    not) is stored as its payload, unchanged; when the payload is not a
    function, every [resolve] returns that very payload and touches nothing. *)
Theorem eager_instance_resolves_to_payload
        (funs : fid -> callable) (d : ServiceOptions) (n : string)
        (c c1 : Container) (w w1 : world) :
  name d = VStr n ->
  flag_of lazyLoad d = false ->
  flag_of isFunction d = false ->
  flag_of isInstance d = true ->
  register funs [d] c w = (Resolved (self c), c1, w1) ->
  services_get (VStr n) c1 = Some (realized (service d))
  /\ (typeof (service d) <> TFunction ->
      forall w2, resolve funs (VStr n) c1 w2 = (Resolved (service d), c1, w2)).
Proof.
  intros Hname Heager Hfun Hinst Hreg.
  destruct (register_eager_stores funs d n c c1 w w1 _ Hname Heager Hreg)
    as (v & w0 & Hcreate & Hget).
  unfold createServiceInstance, try_catch in Hcreate.
  rewrite Hfun, Hinst in Hcreate. unfold ret in Hcreate.
  injection Hcreate as <- _. split; [exact Hget|].
  intros Hty w2.
  apply (resolve_stored funs (VStr n) (realized (service d)) c1 w2 Hget Hty).
Qed.

Lemma eager_instance_resolves_to_payload_witness :
  services_get (VStr "config")
    (snd (fst (register Sample.funs
                 [Sample.described "config" (VObj 77)
                    (Sample.with_isInstance Sample.no_options)]
                 Sample.container0 Sample.world0)))
  = Some (realized (VObj 77))
  /\ (typeof (VObj 77) <> TFunction ->
      forall w2,
        resolve Sample.funs (VStr "config")
          (snd (fst (register Sample.funs
                       [Sample.described "config" (VObj 77)
                          (Sample.with_isInstance Sample.no_options)]
                       Sample.container0 Sample.world0))) w2
        = (Resolved (VObj 77),
           snd (fst (register Sample.funs
                       [Sample.described "config" (VObj 77)
                          (Sample.with_isInstance Sample.no_options)]
                       Sample.container0 Sample.world0)), w2)).
Proof.
  apply (eager_instance_resolves_to_payload Sample.funs
           (Sample.described "config" (VObj 77)
              (Sample.with_isInstance Sample.no_options))
           "config" Sample.container0 _ Sample.world0
           (snd (register Sample.funs
                   [Sample.described "config" (VObj 77)
                      (Sample.with_isInstance Sample.no_options)]
                   Sample.container0 Sample.world0)));
    reflexivity.
Defined.

(** X13.  An eager function-kind service ([isFunction] set) whose payload is
    a plain or arrow function is stored as the result of calling that
    function with the [inject] values as separate arguments (none when
    [inject] is absent); the function is called exactly once, and nothing is
    constructed. *)
Theorem eager_function_stores_call_result
        (funs : fid -> callable) (d : ServiceOptions) (n : string)
        (f : fid) (body : list value -> completion)
        (c c1 : Container) (w w1 : world) :
  name d = VStr n ->
  flag_of lazyLoad d = false ->
  flag_of isFunction d = true ->
  service d = VFun f ->
  funs f = Function body \/ funs f = Arrow body ->
  register funs [d] c w = (Resolved (self c), c1, w1) ->
  exists v added,
    body (inject_arguments d) = Return v
    /\ services_get (VStr n) c1 = Some (realized v)
    /\ events w1 = events w ++ added
    /\ filter is_instantiation added = [EvCall f (inject_arguments d)].
Proof.
  intros Hname Heager Hfun Hservice Hf Hreg.
  edestruct register_single as [_ [r Hone]]; [exact Hname | exact Hreg |].
  destruct (register_one_eager funs n d c w r c1 w1 Heager Hone)
    as (v & w0 & Hcreate & -> & (a & Ea & Fa)).
  unfold createServiceInstance, try_catch in Hcreate.
  rewrite Hfun, Hservice in Hcreate. unfold call in Hcreate.
  fold (inject_arguments d) in Hcreate.
  assert (Hrun : (log_event (EvCall f (inject_arguments d)) ;;
                  match body (inject_arguments d) with
                  | Return v0 => ret v0
                  | Throw e => throw (Thrown e)
                  end) c w = (inr v, c, w0)).
  { destruct Hf as [Hf | Hf]; rewrite Hf in Hcreate;
      destruct ((log_event (EvCall f (inject_arguments d)) ;; _) c w)
        as [[[e|v0] c0] w0'] eqn:E; try discriminate; congruence. }
  unfold bind, log_event, ret, throw in Hrun.
  destruct (body (inject_arguments d)) as [v0|e0]; [|discriminate].
  injection Hrun as -> <-.
  exists v, ([EvCall f (inject_arguments d)] ++ a). repeat split.
  - simpl. apply get_set_same.
  - rewrite Ea. simpl. now rewrite <- app_assoc.
  - rewrite filter_app. simpl.
    now rewrite (filter_negated event is_instantiation a Fa).
Qed.

Lemma eager_function_stores_call_result_witness :
  exists v added,
    (fun _ : list value => Return (VNum 42))
      (inject_arguments
         (Sample.described "answer" Sample.answer
            (Sample.with_isFunction Sample.no_options)))
    = Return v
    /\ services_get (VStr "answer")
         (snd (fst (register Sample.funs
                      [Sample.described "answer" Sample.answer
                         (Sample.with_isFunction Sample.no_options)]
                      Sample.container0 Sample.world0)))
       = Some (realized v)
    /\ events (snd (register Sample.funs
                      [Sample.described "answer" Sample.answer
                         (Sample.with_isFunction Sample.no_options)]
                      Sample.container0 Sample.world0))
       = events Sample.world0 ++ added
    /\ filter is_instantiation added
       = [EvCall 1 (inject_arguments
                      (Sample.described "answer" Sample.answer
                         (Sample.with_isFunction Sample.no_options)))].
Proof.
  apply (eager_function_stores_call_result Sample.funs
           (Sample.described "answer" Sample.answer
              (Sample.with_isFunction Sample.no_options))
           "answer" 1 (fun _ => Return (VNum 42))
           Sample.container0
           (snd (fst (register Sample.funs
                        [Sample.described "answer" Sample.answer
                           (Sample.with_isFunction Sample.no_options)]
                        Sample.container0 Sample.world0)))
           Sample.world0
           (snd (register Sample.funs
                   [Sample.described "answer" Sample.answer
                      (Sample.with_isFunction Sample.no_options)]
                   Sample.container0 Sample.world0)));
    try reflexivity.
  left. reflexivity.
Defined.

(** X14.  An eager class-kind service (neither flag set) is constructed
    exactly once, at registration, with the [inject] values as separate
    constructor arguments.  What [new] evaluated to (the object the
    constructor returned, or else the fresh object) is what the map stores;
    when that is not a function, every later [resolve] returns it without
    constructing anything again. *)
Theorem eager_class_is_constructed_once
        (funs : fid -> callable) (d : ServiceOptions) (n : string)
        (f : fid) (ctor : list value -> completion)
        (c c1 : Container) (w w1 : world) :
  name d = VStr n ->
  flag_of lazyLoad d = false ->
  flag_of isFunction d = false ->
  flag_of isInstance d = false ->
  service d = VFun f ->
  funs f = Class ctor ->
  register funs [d] c w = (Resolved (self c), c1, w1) ->
  exists r built,
    ctor (inject_arguments d) = Return r
    /\ built = (if is_object r then r else VObj (next_addr w))
    /\ services_get (VStr n) c1 = Some (realized built)
    /\ (exists added,
           events w1 = events w ++ added
           /\ filter is_instantiation added
              = [EvNew f (inject_arguments d) (next_addr w)])
    /\ (typeof built <> TFunction ->
        forall w2, resolve funs (VStr n) c1 w2 = (Resolved built, c1, w2)).
Proof.
  intros Hname Heager Hfun Hinst Hservice Hf Hreg.
  edestruct register_single as [_ [u Hone]]; [exact Hname | exact Hreg |].
  destruct (register_one_eager funs n d c w u c1 w1 Heager Hone)
    as (v & w0 & Hcreate & -> & (a & Ea & Fa)).
  unfold createServiceInstance, try_catch in Hcreate.
  rewrite Hfun, Hinst, Hservice in Hcreate. unfold construct in Hcreate.
  rewrite Hf in Hcreate. fold (inject_arguments d) in Hcreate.
  unfold bind, lift_world, log_event, ret, throw in Hcreate. simpl in Hcreate.
  destruct (ctor (inject_arguments d)) as [r|e]; [|discriminate].
  injection Hcreate as <- <-.
  set (built := if is_object r then r else VObj (next_addr w)).
  assert (Hget : services_get (VStr n)
                   (with_services (JsMap.set n (realized built) (services c)) c)
                 = Some (realized built))
    by (simpl; apply get_set_same).
  exists r, built. split; [reflexivity|]. split; [reflexivity|].
  split; [exact Hget|]. split.
  - exists ([EvNew f (inject_arguments d) (next_addr w)] ++ a). split.
    + rewrite Ea. simpl. now rewrite <- app_assoc.
    + rewrite filter_app. simpl. now rewrite (filter_negated event is_instantiation a Fa).
  - intros Hty w2.
    apply (resolve_stored funs (VStr n) (realized built) _ w2 Hget Hty).
Qed.

Lemma eager_class_is_constructed_once_witness :
  services_get (VStr "Pair")
    (snd (fst (register Sample.funs
                 [Sample.described "Pair" Sample.Clock
                    (Sample.with_inject [VNum 1; VNum 2] Sample.no_options)]
                 Sample.container0 Sample.world0)))
  = Some (realized (VObj 0))
  /\ (exists added,
         events (snd (register Sample.funs
                        [Sample.described "Pair" Sample.Clock
                           (Sample.with_inject [VNum 1; VNum 2] Sample.no_options)]
                        Sample.container0 Sample.world0))
         = events Sample.world0 ++ added
         /\ filter is_instantiation added = [EvNew 0 [VNum 1; VNum 2] 0])
  /\ resolve Sample.funs (VStr "Pair")
       (snd (fst (register Sample.funs
                    [Sample.described "Pair" Sample.Clock
                       (Sample.with_inject [VNum 1; VNum 2] Sample.no_options)]
                    Sample.container0 Sample.world0)))
       Sample.world0
     = (Resolved (VObj 0),
        snd (fst (register Sample.funs
                    [Sample.described "Pair" Sample.Clock
                       (Sample.with_inject [VNum 1; VNum 2] Sample.no_options)]
                    Sample.container0 Sample.world0)),
        Sample.world0).
Proof.
  destruct (eager_class_is_constructed_once Sample.funs
              (Sample.described "Pair" Sample.Clock
                 (Sample.with_inject [VNum 1; VNum 2] Sample.no_options))
              "Pair" 0 (fun _ => Return VUndefined)
              Sample.container0
              (snd (fst (register Sample.funs
                           [Sample.described "Pair" Sample.Clock
                              (Sample.with_inject [VNum 1; VNum 2] Sample.no_options)]
                           Sample.container0 Sample.world0)))
              Sample.world0
              (snd (register Sample.funs
                      [Sample.described "Pair" Sample.Clock
                         (Sample.with_inject [VNum 1; VNum 2] Sample.no_options)]
                      Sample.container0 Sample.world0))
              eq_refl eq_refl eq_refl eq_refl eq_refl eq_refl eq_refl)
    as (r & built & Hr & Hbuilt & Hget & Hevents & Hresolve).
  injection Hr as <-. simpl in Hbuilt. subst built.
  split; [exact Hget|]. split; [exact Hevents|].
  apply Hresolve. discriminate.
Defined.

(** What [new] gives need not be an instance one can resolve twice: a class
    whose constructor hands back the function [Clock] is stored as that
    function, and [resolve] then constructs from it. *)
Example eager_class_returning_function :
  let funs := fun f => match f with
                       | 5 => Class (fun _ => Return (VFun 0))
                       | _ => Sample.funs f
                       end in
  let d := Sample.described "Maker" (VFun 5) Sample.no_options in
  let registered := register funs [d] Sample.container0 Sample.world0 in
  services_get (VStr "Maker") (snd (fst registered)) = Some (realized (VFun 0))
  /\ fst (fst (resolve funs (VStr "Maker") (snd (fst registered)) (snd registered)))
     = Resolved (VObj 1).
Proof. split; reflexivity. Qed.

(** ** More on [autoLoad] *)

(** X15.  When the loop over the loadable files reaches a file whose import
    fails, or whose default export is no object, [autoLoad] rejects, with
    what the import threw or with the invalid-module error naming the file.
    Nothing of the batch is registered: the container is the one from before
    the call without the entries that bear the name of an earlier module of
    the directory, every entry removed in this way was replaced by such a
    module with [upsert] on, and nothing else has changed. *)
Theorem autoLoad_stops_at_unusable_file
        (funs : fid -> callable) (entries before after : list file) (f : file)
        (ms : list ServiceOptions) (c c1 : Container) (w w1 : world) :
  filter loadable entries = before ++ f :: after ->
  scan before [] c w = (Resolved ms, c1, w1) ->
  module_of f = None ->
  autoLoad funs (Listing entries) c w
  = (Rejected (match file_import f with
               | ImportFails e => Thrown e
               | ImportDefault _ => InvalidModule (file_name f)
               end), c1, w1)
  /\ map Some ms = map module_of before
  /\ self c1 = self c
  /\ props c1 = props c
  /\ services c1
     = filter (fun kv => negb (existsb (named (fst kv)) ms)) (services c)
  /\ (forall kv, In kv (services c) -> existsb (named (fst kv)) ms = true ->
                 exists m', In m' ms /\ named (fst kv) m' = true
                            /\ flag_of upsert_option m' = true).
Proof.
  intros Hfiles Hbefore Hnone.
  destruct (scan_replaces before [] ms c c1 w w1 Hbefore)
    as (new & Hnew & Hself & Hprops & Hservices & Hreplaced).
  simpl in Hnew. subst new.
  split; [|split; [|split; [|split; [|split]]]]; auto.
  - unfold autoLoad. rewrite Hfiles, scan_app, Hbefore. simpl.
    unfold module_of in Hnone.
    destruct (file_import f) as [e|d]; [reflexivity|]. now rewrite Hnone.
  - apply scan_modules in Hbefore. exact Hbefore.
Qed.

(** With "A" and "B" registered: a directory that replaces "A" and then
    holds a file exporting the number 3 ends with "A" removed and "B" as it
    was. *)
Lemma autoLoad_stops_at_unusable_file_witness :
  autoLoad Sample.funs
    (Listing [Sample.module_file "a.js"
                (Sample.described "A" Sample.answer
                   (Sample.with_upsert (Sample.with_isFunction Sample.no_options)));
              {| file_name := "bad.js";
                 file_import := ImportDefault (ExportValue (VNum 3)) |}])
    Sample.container_A_B Sample.world0
  = (Rejected (InvalidModule "bad.js"),
     services_delete (VStr "A") Sample.container_A_B, Sample.world0)
  /\ services (services_delete (VStr "A") Sample.container_A_B)
     = [("B", Sample.described "B" Sample.Clock (Sample.with_lazy Sample.no_options))]
  /\ (exists m',
         In m' [Sample.described "A" Sample.answer
                  (Sample.with_upsert (Sample.with_isFunction Sample.no_options))]
         /\ named "A" m' = true /\ flag_of upsert_option m' = true).
Proof.
  destruct (autoLoad_stops_at_unusable_file Sample.funs
              [Sample.module_file "a.js"
                 (Sample.described "A" Sample.answer
                    (Sample.with_upsert (Sample.with_isFunction Sample.no_options)));
               {| file_name := "bad.js";
                  file_import := ImportDefault (ExportValue (VNum 3)) |}]
              [Sample.module_file "a.js"
                 (Sample.described "A" Sample.answer
                    (Sample.with_upsert (Sample.with_isFunction Sample.no_options)))]
              []
              {| file_name := "bad.js";
                 file_import := ImportDefault (ExportValue (VNum 3)) |}
              [Sample.described "A" Sample.answer
                 (Sample.with_upsert (Sample.with_isFunction Sample.no_options))]
              Sample.container_A_B
              (services_delete (VStr "A") Sample.container_A_B)
              Sample.world0 Sample.world0
              eq_refl eq_refl eq_refl)
    as (Hrun & _ & _ & _ & Hservices & Hreplaced).
  split; [exact Hrun|]. split; [exact Hservices|].
  apply (Hreplaced ("A", Sample.described "A" Sample.Clock
                           (Sample.with_lazy Sample.no_options))).
  - simpl. auto.
  - reflexivity.
Defined.

Lemma has_of_key (V : Type) (k : string) (m : JsMap.t V) :
  In k (JsMap.keys m) -> JsMap.has k m = true.
Proof.
  unfold JsMap.keys, JsMap.has. induction m as [|[k0 v0] m IH]; simpl; [tauto|].
  intros [-> | Hin].
  - now rewrite String.eqb_refl.
  - destruct (k0 =? k); auto.
Qed.

(** X16.  When [autoLoad] resolves, every loadable file of the directory
    exported a module, and every one of those modules' names is registered
    in the container. *)
Theorem autoLoad_registers_every_module
        (funs : fid -> callable) (entries : list file)
        (c c2 : Container) (w w2 : world) :
  autoLoad funs (Listing entries) c w = (Resolved tt, c2, w2) ->
  forall f, In f entries -> loadable f = true ->
            exists m, module_of f = Some m /\ services_has (name m) c2 = true.
Proof.
  unfold autoLoad. intros Hrun f Hin Hloadable.
  destruct (scan (filter loadable entries) [] c w) as [[[ms|e|e] c1] w1] eqn:Hscan;
    try discriminate.
  destruct (register funs (sort_modules ms) c1 w1) as [[[x|e|e] c3] w3] eqn:Hreg;
    try discriminate.
  simpl in Hrun. injection Hrun as <- <-.
  apply scan_modules in Hscan. simpl in Hscan.
  assert (Hf : In (module_of f) (map Some ms)).
  { rewrite Hscan. apply in_map. apply filter_In. auto. }
  apply in_map_iff in Hf. destruct Hf as (m & Hm & Hinm).
  exists m. split; [now symmetry|].
  apply register_resolved_keys in Hreg.
  assert (Hname : In (name m) (map VStr (JsMap.keys (services c3)))).
  { rewrite Hreg. apply in_or_app. right. apply in_map.
    eapply Permutation_in; [apply array_sort_perm | exact Hinm]. }
  apply in_map_iff in Hname. destruct Hname as (k & Hk & Hkey).
  rewrite <- Hk. unfold services_has, services_get.
  apply has_of_key in Hkey. unfold JsMap.has in Hkey.
  now destruct (JsMap.get k (services c3)).
Qed.

Lemma autoLoad_registers_every_module_witness :
  exists m,
    module_of (Sample.module_file "b.js" (Sample.prioritized "b" 5)) = Some m
    /\ services_has (name m)
         (snd (fst (autoLoad Sample.funs (Listing Sample.directory_1_5_3)
                             Sample.container0 Sample.world0)))
       = true.
Proof.
  apply (autoLoad_registers_every_module Sample.funs Sample.directory_1_5_3
           Sample.container0
           (snd (fst (autoLoad Sample.funs (Listing Sample.directory_1_5_3)
                               Sample.container0 Sample.world0)))
           Sample.world0
           (snd (autoLoad Sample.funs (Listing Sample.directory_1_5_3)
                          Sample.container0 Sample.world0))
           eq_refl
           (Sample.module_file "b.js" (Sample.prioritized "b" 5))).
  - simpl. auto.
  - reflexivity.
Defined.

(** ** [upsert] as it stands *)

(** X17.  On a host where the global [key] is not defined, [upsert] never
    replaces anything: however the call ends, every entry that was in the
    map before is still there unchanged.  For a name that is registered the
    call rejects at once; for a new name it behaves as [register] does. *)
Theorem upsert_never_replaces
        (funs : fid -> callable) (s : ServiceOptions) (c : Container) (w : world) :
  JsMap.get "key" (globals w) = None ->
  forall k entry,
    JsMap.get k (services c) = Some entry ->
    JsMap.get k (services (snd (fst (upsert funs s c w)))) = Some entry.
Proof.
  intros Hkey k entry Hget. unfold upsert.
  destruct (services_has (name s) c); cbn [negb].
  - rewrite Hkey. simpl. exact Hget.
  - destruct (register funs [s] c w) as [[r c'] w'] eqn:Hreg. simpl.
    destruct (register_keeps_existing funs [s] c w r c' w' Hreg) as [Hkeep _].
    apply Hkeep. exact Hget.
Qed.

Lemma upsert_never_replaces_witness :
  JsMap.get "A"
    (services (snd (fst (upsert Sample.funs
                           (Sample.described "A" Sample.answer
                              (Sample.with_isFunction Sample.no_options))
                           Sample.container_A_B Sample.world0))))
  = Some (Sample.described "A" Sample.Clock (Sample.with_lazy Sample.no_options)).
Proof.
  apply (upsert_never_replaces Sample.funs
           (Sample.described "A" Sample.answer
              (Sample.with_isFunction Sample.no_options))
           Sample.container_A_B Sample.world0 eq_refl
           "A" (Sample.described "A" Sample.Clock (Sample.with_lazy Sample.no_options))).
  reflexivity.
Defined.

(** ** The constructor's options *)

Lemma fold_set_other (k : string) (l : list (string * value)) (acc : JsMap.t value) :
  ~ In k (map fst l) ->
  JsMap.get k (fold_left (fun ps kv => JsMap.set (fst kv) (snd kv) ps) l acc)
  = JsMap.get k acc.
Proof.
  revert acc. induction l as [|[k0 v0] l IH]; intros acc Hnot; simpl; auto.
  simpl in Hnot. rewrite IH by tauto.
  apply get_set_other. intros ->. tauto.
Qed.

Lemma fold_set_same (k : string) (v : value) (l : list (string * value))
      (acc : JsMap.t value) :
  NoDup (map fst l) -> In (k, v) l ->
  JsMap.get k (fold_left (fun ps kv => JsMap.set (fst kv) (snd kv) ps) l acc) = Some v.
Proof.
  revert acc. induction l as [|[k0 v0] l IH]; intros acc Hnodup Hin; simpl.
  - contradiction.
  - simpl in Hnodup. inversion Hnodup as [|k1 l1 Hnot Hrest]; subst.
    destruct Hin as [[= -> ->] | Hin].
    + rewrite fold_set_other by exact Hnot. apply get_set_same.
    + now apply IH.
Qed.

(** X18.  [new Container(options)] attaches every property of [options] to
    the container and nothing else: a key of [options] reads back its
    value, any other key reads nothing.  In particular [this.logger] is the
    [logger] option, or [undefined] without one. *)
Theorem constructor_attaches_options
        (opts : ConstructorOptions) (p : process) :
  NoDup (map fst opts) ->
  exists c,
    nth_error (containers (snd (new_Container (Some opts) p)))
              (fst (new_Container (Some opts) p)) = Some c
    /\ (forall k v, In (k, v) opts -> JsMap.get k (props c) = Some v)
    /\ (forall k, ~ In k (map fst opts) -> JsMap.get k (props c) = None)
    /\ (forall v, In ("logger", v) opts -> logger c = v)
    /\ (~ In "logger" (map fst opts) -> logger c = VUndefined).
Proof.
  intros Hnodup. simpl. eexists. split.
  - rewrite nth_error_app2 by lia. rewrite Nat.sub_diag. reflexivity.
  - simpl. repeat split.
    + intros k v Hin. now apply fold_set_same.
    + intros k Hnot. now rewrite fold_set_other.
    + intros v Hin. unfold logger. simpl. now rewrite (fold_set_same "logger" v).
    + intros Hnot. unfold logger. simpl. now rewrite fold_set_other.
Qed.

Lemma constructor_attaches_options_witness :
  exists c,
    nth_error (containers (snd (new_Container (Some [("logger", VObj 9)]) boot)))
              (fst (new_Container (Some [("logger", VObj 9)]) boot)) = Some c
    /\ (forall k v, In (k, v) [("logger", VObj 9)] -> JsMap.get k (props c) = Some v)
    /\ (forall k, ~ In k (map fst [("logger", VObj 9)]) -> JsMap.get k (props c) = None)
    /\ (forall v, In ("logger", v) [("logger", VObj 9)] -> logger c = v)
    /\ (~ In "logger" (map fst [("logger", VObj 9)]) -> logger c = VUndefined).
Proof.
  apply (constructor_attaches_options [("logger", VObj 9)] boot).
  repeat constructor. simpl. tauto.
Defined.
